(** * The credential issuance flow of [functions.js]

    A shallow embedding of [src/functions.js]: the two transport helpers
    ([getRequest], [postRequest]), the four service operations
    ([createInvitation], [getConnectionStatus], [createCredentialOffer],
    [getCredentialState]), [wait], and the flow [tests] with its two
    polling loops.

    The program talks to the outside world through [fetch], [setTimeout]
    and [console.log] only.  Each of these appends one event to a trace;
    the remote service is an oracle that answers a request knowing
    everything that happened before it.  The [while (true)] loops take a
    bound on their number of iterations; a run that uses the bound up is
    [Pending], a promise that has not settled yet. *)

From Stdlib Require Import String Ascii List ZArith Lia Bool Arith.
From ExtLib Require Import Structures.Monad.
Import ListNotations.
Import MonadNotation.
Local Open Scope string_scope.
Local Open Scope list_scope.
Local Open Scope monad_scope.
Set Warnings "-register-all".

(** ** JavaScript values *)

(** The values the program handles: what [JSON.parse] produces, and
    [undefined].  A number is carried as the text [Number.prototype.toString]
    gives for it: the program does no arithmetic, it only splices values
    into template literals and compares them with the words ['trusted'] and
    ['done'].  The fields of an object are listed in property order, each
    key once. *)
Inductive value : Type :=
| JUndefined
| JNull
| JBool (b : bool)
| JNumber (text : string)
| JString (s : string)
| JArray (items : list value)
| JObject (fields : list (string * value)).

(** What can be thrown. *)
Inductive error : Type :=
| FetchFailed      (* fetch rejects: network failure (a TypeError) *)
| InvalidJSON      (* response.json() rejects (a SyntaxError) *)
| NullishRead      (* TypeError: cannot read properties of undefined / null *)
| NotPrimitive.    (* TypeError: cannot convert object to primitive value *)

Inductive outcome (A : Type) : Type :=
| Returned (a : A)
| Thrown (e : error)
| Pending.
Arguments Returned {A} a.
Arguments Thrown {A} e.
Arguments Pending {A}.

(** Own property lookup. *)
Fixpoint assoc (k : string) (fields : list (string * value)) : option value :=
  match fields with
  | [] => None
  | (k', v) :: rest => if String.eqb k k' then Some v else assoc k rest
  end.

Definition has_key (k : string) (fields : list (string * value)) : bool :=
  match assoc k fields with Some _ => true | None => false end.

(** [v.k] for the keys this program reads ([data], [invitationUrl],
    [connection], [id], [records], [status], [state], [connectionId]):
    none of them is defined on a prototype, so on anything that is not
    [undefined] or [null] a key that is not an own property reads as
    [undefined]. *)
Definition get (v : value) (k : string) : outcome value :=
  match v with
  | JUndefined | JNull => Thrown NullishRead
  | JObject fields =>
      Returned (match assoc k fields with Some x => x | None => JUndefined end)
  | _ => Returned JUndefined
  end.

(** [ToString], as a template literal applies it.  An array is joined with
    commas, [undefined] and [null] elements giving the empty text; a plain
    object gives [[object Object]], unless it has an own [toString] property,
    which after [JSON.parse] cannot be a function: then the conversion
    throws. *)
Fixpoint ToString (v : value) : option string :=
  match v with
  | JUndefined => Some "undefined"
  | JNull => Some "null"
  | JBool true => Some "true"
  | JBool false => Some "false"
  | JNumber text => Some text
  | JString s => Some s
  | JArray items =>
      (fix join (l : list value) : option string :=
         match l with
         | [] => Some ""
         | x :: rest =>
             let element :=
               match x with
               | JUndefined | JNull => Some ""
               | _ => ToString x
               end in
             match element, rest with
             | None, _ => None
             | Some e, [] => Some e
             | Some e, _ :: _ =>
                 match join rest with
                 | Some r => Some (e ++ "," ++ r)%string
                 | None => None
                 end
             end
         end) items
  | JObject fields =>
      if has_key "toString" fields then None else Some "[object Object]"
  end.

Definition to_string (v : value) : outcome string :=
  match ToString v with
  | Some s => Returned s
  | None => Thrown NotPrimitive
  end.

(** [v == w] where [w] is one of the words the program compares with
    (['trusted'], ['done']).  Such a word is not the text of a number, so
    [ToNumber w] is [NaN] and no number or boolean equals it; [undefined]
    and [null] equal only each other; an array or object is first converted
    to a primitive, which for these values is its [ToString]. *)
Definition loose_eq (v : value) (w : string) : outcome bool :=
  match v with
  | JString s => Returned (String.eqb s w)
  | JUndefined | JNull | JBool _ | JNumber _ => Returned false
  | JArray _ | JObject _ =>
      match ToString v with
      | Some p => Returned (String.eqb p w)
      | None => Thrown NotPrimitive
      end
  end.

(** The texts of the numbers that are not finite. *)
Definition non_finite (text : string) : bool :=
  String.eqb text "Infinity" || String.eqb text "-Infinity" || String.eqb text "NaN".

(** What [JSON.stringify] keeps of a value: a property whose value is
    [undefined] is left out, an [undefined] array element becomes [null], a
    number that is not finite becomes [null], and [undefined] itself has no
    JSON text at all. *)
Fixpoint jsonify (v : value) : option value :=
  match v with
  | JUndefined => None
  | JNumber text => if non_finite text then Some JNull else Some v
  | JArray items =>
      Some (JArray (map (fun x => match jsonify x with
                                  | Some y => y
                                  | None => JNull
                                  end) items))
  | JObject fields =>
      Some (JObject
              ((fix props (l : list (string * value)) : list (string * value) :=
                  match l with
                  | [] => []
                  | (k, x) :: rest =>
                      match jsonify x with
                      | Some y => (k, y) :: props rest
                      | None => props rest
                      end
                  end) fields))
  | _ => Some v
  end.

(** A default parameter value applies when the argument is [undefined]. *)
Definition default_to (d : value) (v : value) : value :=
  match v with
  | JUndefined => d
  | _ => v
  end.

(** ** The outside world *)

Inductive http_method : Type := GET | POST.

(** The arguments of a [fetch] call that vary between calls; the other
    options ([mode], [cache], [credentials], [redirect], [referrerPolicy])
    are the same constants in both helpers.  [body] is the value whose JSON
    text is sent. *)
Record request : Type := mkRequest {
  method : http_method;
  url : string;
  headers : list (string * string);
  body : option value
}.

(** How a request ends: [fetch] rejects, or a response arrives with a status
    code and a body that is the JSON text of a value or is not JSON. *)
Inductive reply : Type :=
| NetworkFailure
| Response (status : nat) (json : option value).

Inductive event : Type :=
| EFetch (rq : request) (rp : reply)   (* fetch(url, options) and its answer *)
| EWait (ms : Z)                        (* setTimeout(resolve, ms) *)
| ELog (v : value).                     (* console.log(v) *)

Definition trace : Type := list event.

(** The service answers a request from what has happened so far. *)
Definition service : Type := trace -> request -> reply.

(** ** Asynchronous computations *)

Definition M (A : Type) : Type := service -> trace -> outcome A * trace.

Definition retM {A : Type} (a : A) : M A := fun _ t => (Returned a, t).

Definition bindM {A B : Type} (m : M A) (f : A -> M B) : M B :=
  fun svc t =>
    match m svc t with
    | (Returned a, t') => f a svc t'
    | (Thrown e, t') => (Thrown e, t')
    | (Pending, t') => (Pending, t')
    end.

#[export] Instance Monad_M : Monad M := {| ret := @retM; bind := @bindM |}.

Definition run {A : Type} (m : M A) (svc : service) (t : trace) : outcome A * trace :=
  m svc t.

(** A synchronous step of the program: it returns or throws where it stands. *)
Definition lift {A : Type} (o : outcome A) : M A := fun _ t => (o, t).

Definition emit (e : event) : M unit := fun _ t => (Returned tt, t ++ [e]).

Definition fetch (rq : request) : M reply :=
  fun svc t => let rp := svc t rq in (Returned rp, t ++ [EFetch rq rp]).

(** [response.json()] *)
Definition json (rp : reply) : outcome value :=
  match rp with
  | NetworkFailure => Thrown FetchFailed
  | Response _ None => Thrown InvalidJSON
  | Response _ (Some v) => Returned v
  end.

Definition console_log (v : value) : M unit := emit (ELog v).

(** [while (true) { ... }]: [body] answers whether it reached [break]. *)
Fixpoint while_true (fuel : nat) (body : M bool) : M unit :=
  match fuel with
  | O => lift Pending
  | S fuel' =>
      stop <- body ;;
      if (stop : bool) then ret tt else while_true fuel' body
  end.

(** ** The program *)

Definition getRequest (url : value) : M value :=
  let url := default_to (JString "") url in
  u <- lift (to_string url) ;;
  response <- fetch (mkRequest GET u [] None) ;;
  lift (json response).

Definition postRequest (url data : value) : M value :=
  let url := default_to (JString "") url in
  let data := default_to (JObject []) data in
  u <- lift (to_string url) ;;
  response <- fetch (mkRequest POST u [("Content-Type", "application/json")]
                               (jsonify data)) ;;
  lift (json response).

Definition invitation_url : string :=
  "http://<YOUR OCM IP OR DOMAIN>/v1/invitation-url?alias=trust".
Definition connections_url : string :=
  "http://<YOUR OCM IP OR DOMAIN>/v1/connections/".
Definition offer_url : string :=
  "http://<YOUR OCM IP OR DOMAIN>/v1/create-offer-credential".
Definition credential_url : string :=
  "http://<YOUR OCM IP OR DOMAIN>/v1/credential/".
Definition default_credentialDefinitionId : string :=
  "<YOUR CREDENTIAL DEFINITION ID>".

Definition createInvitation (url : value) : M value :=
  let url := default_to (JString invitation_url) url in
  response <- postRequest url JUndefined ;;
  data <- lift (get response "data") ;;
  invitationUrl <- lift (get data "invitationUrl") ;;
  data <- lift (get response "data") ;;
  connection <- lift (get data "connection") ;;
  id <- lift (get connection "id") ;;
  ret (JObject [("invitationUrl", invitationUrl); ("connectionId", id)]).

(** The text of the template literal [`${a}${b}`]. *)
Definition template2 (a b : value) : outcome string :=
  match to_string a with
  | Returned x =>
      match to_string b with
      | Returned y => Returned (x ++ y)%string
      | Thrown e => Thrown e
      | Pending => Pending
      end
  | Thrown e => Thrown e
  | Pending => Pending
  end.

Definition getConnectionStatus (connectionId url : value) : M value :=
  let url := default_to (JString connections_url) url in
  target <- lift (template2 url connectionId) ;;
  response <- getRequest (JString target) ;;
  data <- lift (get response "data") ;;
  records <- lift (get data "records") ;;
  lift (get records "status").

Definition createCredentialOffer
    (connectionId attributes credentialDefinitionId url : value) : M value :=
  let credentialDefinitionId :=
    default_to (JString default_credentialDefinitionId) credentialDefinitionId in
  let url := default_to (JString offer_url) url in
  response <- postRequest url
                (JObject [("connectionId", connectionId);
                          ("credentialDefinitionId", credentialDefinitionId);
                          ("comment", JString "");
                          ("attributes", attributes);
                          ("autoAcceptCredential", JString "always")]) ;;
  data <- lift (get response "data") ;;
  lift (get data "id").

Definition getCredentialState (credentialId url : value) : M value :=
  let url := default_to (JString credential_url) url in
  target <- lift (template2 url credentialId) ;;
  response <- getRequest (JString target) ;;
  data <- lift (get response "data") ;;
  lift (get data "state").

Definition wait (ms : Z) : M unit := emit (EWait ms).

(** The attributes [tests] offers. *)
Definition attribute (name val : string) : value :=
  JObject [("name", JString name); ("value", JString val)].

Definition attributes : value :=
  JArray [attribute "user_id" "testuser@merlot-education.eu";
          attribute "course_name" "Example Course";
          attribute "grade" "15/15 - passed";
          attribute "variable_data" "whatevs"].

(** The first loop of [tests]: wait until the connection is ['trusted']. *)
Definition connection_wait (fuel : nat) (invitationObject : value) : M unit :=
  while_true fuel
    (wait 2500 ;;
     connectionId <- lift (get invitationObject "connectionId") ;;
     connectionStatus <- getConnectionStatus connectionId JUndefined ;;
     console_log connectionStatus ;;
     lift (loose_eq connectionStatus "trusted")).

(** The second loop of [tests]: wait until the credential is ['done']. *)
Definition credential_wait (fuel : nat) (credentialId : value) : M unit :=
  while_true fuel
    (wait 2500 ;;
     credentialState <- getCredentialState credentialId JUndefined ;;
     console_log credentialState ;;
     lift (loose_eq credentialState "done")).

(** [tests].  [invitationObject] is assigned without a declaration, which
    makes it a global; nothing else writes it, so it is a plain binding here.
    [main] only calls [tests]: it neither awaits nor catches, so the outcome
    of [tests] is the outcome of the program. *)
Definition tests (fuel : nat) : M value :=
  invitationObject <- createInvitation JUndefined ;;
  invitationUrl <- lift (get invitationObject "invitationUrl") ;;
  text <- lift (to_string invitationUrl) ;;
  console_log
    (JString ("create a QR code from this and scan it with the PCM: " ++ text)%string) ;;
  wait 5000 ;;
  connection_wait fuel invitationObject ;;
  connectionId <- lift (get invitationObject "connectionId") ;;
  credentialId <- createCredentialOffer connectionId attributes
                    JUndefined JUndefined ;;
  credential_wait fuel credentialId ;;
  ret JUndefined.

(** ** What the service operations make of a reply *)

Inductive operation : Type :=
| CreateInvitation
| GetConnectionStatus
| CreateCredentialOffer
| GetCredentialState.

Definition bindO {A B : Type} (o : outcome A) (f : A -> outcome B) : outcome B :=
  match o with
  | Returned a => f a
  | Thrown e => Thrown e
  | Pending => Pending
  end.

(** The fields an operation reads from the parsed response, in the order it
    reads them. *)
Definition extract (op : operation) (response : value) : outcome value :=
  match op with
  | CreateInvitation =>
      bindO (get response "data") (fun data =>
      bindO (get data "invitationUrl") (fun invitationUrl =>
      bindO (get response "data") (fun data =>
      bindO (get data "connection") (fun connection =>
      bindO (get connection "id") (fun id =>
      Returned (JObject [("invitationUrl", invitationUrl);
                         ("connectionId", id)]))))))
  | GetConnectionStatus =>
      bindO (get response "data") (fun data =>
      bindO (get data "records") (fun records =>
      get records "status"))
  | CreateCredentialOffer =>
      bindO (get response "data") (fun data => get data "id")
  | GetCredentialState =>
      bindO (get response "data") (fun data => get data "state")
  end.

(** How an operation settles once its request is answered by [rp]. *)
Definition settle (op : operation) (rp : reply) : outcome value :=
  bindO (json rp) (extract op).

Definition json_header : list (string * string) :=
  [("Content-Type", "application/json")].

Definition invitation_request : request :=
  mkRequest POST invitation_url json_header (Some (JObject [])).

Definition poll_request (base id : string) : request :=
  mkRequest GET (base ++ id)%string [] None.

Definition offer_body (connectionId attrs credentialDefinitionId : value) : value :=
  JObject [("connectionId", connectionId);
           ("credentialDefinitionId", credentialDefinitionId);
           ("comment", JString "");
           ("attributes", attrs);
           ("autoAcceptCredential", JString "always")].

Definition offer_request (endpoint : string) (data : value) : request :=
  mkRequest POST endpoint json_header (jsonify data).

(** Which operation of [tests] a request belongs to.  [tests] passes no
    endpoint, so each operation uses its default one, and no two of the
    defaults can be confused. *)
Definition issued_by (rq : request) : option operation :=
  match method rq with
  | POST =>
      if String.eqb (url rq) invitation_url then Some CreateInvitation
      else if String.eqb (url rq) offer_url then Some CreateCredentialOffer
      else None
  | GET =>
      if String.prefix connections_url (url rq) then Some GetConnectionStatus
      else if String.prefix credential_url (url rq) then Some GetCredentialState
      else None
  end.

Definition is_poll (e : event) : bool :=
  match e with
  | EFetch rq _ => match method rq with GET => true | POST => false end
  | _ => false
  end.

Definition is_delay (e : event) : bool :=
  match e with
  | EWait ms => Z.eqb ms 2500
  | _ => false
  end.

Definition polls (t : trace) : nat := length (filter is_poll t).
Definition delays (t : trace) : nat := length (filter is_delay t).

Definition polls_of (op : operation) (t : trace) : nat :=
  length (filter (fun e => match e with
                           | EFetch rq _ =>
                               match issued_by rq, op with
                               | Some GetConnectionStatus, GetConnectionStatus => true
                               | Some GetCredentialState, GetCredentialState => true
                               | _, _ => false
                               end
                           | _ => false
                           end) t).

(** ** A scripted service *)

(** A service that answers each operation from a script: one reply for the
    invitation, one for the offer, and for either kind of poll the reply to
    the k-th poll of that kind. *)
Record script : Type := mkScript {
  invitation_reply : reply;
  connection_replies : nat -> reply;
  offer_reply : reply;
  credential_replies : nat -> reply
}.

Definition scripted (s : script) : service :=
  fun t rq =>
    match issued_by rq with
    | Some CreateInvitation => invitation_reply s
    | Some GetConnectionStatus => connection_replies s (polls_of GetConnectionStatus t)
    | Some CreateCredentialOffer => offer_reply s
    | Some GetCredentialState => credential_replies s (polls_of GetCredentialState t)
    | None => NetworkFailure
    end.

Definition ok (body : value) : reply := Response 200 (Some body).

Definition status_body (status : value) : value :=
  JObject [("data", JObject [("records", JObject [("status", status)])])].

Definition state_body (state : value) : value :=
  JObject [("data", JObject [("state", state)])].

(** The successive replies of a poll taken from a list; once the list is
    used up the request fails. *)
Definition in_turn (wrap : value -> value) (l : list value) : nat -> reply :=
  fun k => match nth_error l k with
           | Some v => ok (wrap v)
           | None => NetworkFailure
           end.

(** ** The end-to-end scenario *)

Definition scenario : script :=
  mkScript
    (ok (JObject [("data",
           JObject [("invitationUrl", JString "https://wallet.example/inv/abc");
                    ("connection", JObject [("id", JString "conn-1")])])]))
    (in_turn status_body [JString "pending"; JString "pending"; JString "trusted"])
    (ok (JObject [("data", JObject [("id", JString "cred-1")])]))
    (in_turn state_body [JString "offer-sent"; JString "done"]).

(** ** The shape of a run *)

(** A value that is neither an array nor an object. *)
Definition primitive (v : value) : bool :=
  match v with
  | JArray _ | JObject _ => false
  | _ => true
  end.

(** What [createInvitation] returns. *)
Definition invitation (invitationUrl connectionId : value) : value :=
  JObject [("invitationUrl", invitationUrl); ("connectionId", connectionId)].

Definition banner (text : string) : event :=
  ELog (JString ("create a QR code from this and scan it with the PCM: " ++ text)%string).

Section Polling.

Variable svc : service.
Variable base : string.     (* the endpoint polled *)
Variable id : value.        (* the connection or credential polled *)
Variable op : operation.    (* the operation that polls *)
Variable word : string.     (* the status that ends the loop *)

(** One turn of a polling loop. *)
Definition poll_body : M bool :=
  wait 2500 ;;
  target <- lift (to_string id) ;;
  rp <- fetch (poll_request base target) ;;
  v <- lift (settle op rp) ;;
  console_log v ;;
  lift (loose_eq v word).

(** The answer to the poll of a turn that starts after [t]. *)
Definition answer (target : string) (t : trace) : reply :=
  svc (t ++ [EWait 2500]) (poll_request base target).

(** The events of a turn that starts after [t] and reads the status [v]. *)
Definition turn (target : string) (t : trace) (v : value) : trace :=
  [EWait 2500; EFetch (poll_request base target) (answer target t); ELog v].

(** [polling t o t']: a polling loop entered after [t] has outcome [o]
    after [t']. *)
Inductive polling : trace -> outcome unit -> trace -> Prop :=
| polling_pending t :
    polling t Pending t
| polling_unprintable t :
    ToString id = None ->
    polling t (Thrown NotPrimitive) (t ++ [EWait 2500])
| polling_failed t target e :
    ToString id = Some target ->
    settle op (answer target t) = Thrown e ->
    polling t (Thrown e)
      (t ++ [EWait 2500; EFetch (poll_request base target) (answer target t)])
| polling_confused t target v e :
    ToString id = Some target ->
    settle op (answer target t) = Returned v ->
    loose_eq v word = Thrown e ->
    polling t (Thrown e) (t ++ turn target t v)
| polling_reached t target v :
    ToString id = Some target ->
    settle op (answer target t) = Returned v ->
    loose_eq v word = Returned true ->
    polling t (Returned tt) (t ++ turn target t v)
| polling_again t target v o t' :
    ToString id = Some target ->
    settle op (answer target t) = Returned v ->
    loose_eq v word = Returned false ->
    polling (t ++ turn target t v) o t' ->
    polling t o t'.

End Polling.

Section Flow.

Variable svc : service.

Definition invited : trace :=
  [EFetch invitation_request (svc [] invitation_request)].

Definition greeted (text : string) : trace :=
  invited ++ [banner text; EWait 5000].

Definition offer_of (connectionId : value) : request :=
  offer_request offer_url
    (offer_body connectionId attributes (JString default_credentialDefinitionId)).

Definition offered (connectionId : value) (t : trace) : trace :=
  t ++ [EFetch (offer_of connectionId) (svc t (offer_of connectionId))].

(** [flow o t]: [tests] has outcome [o] after the events [t]. *)
Inductive flow : outcome value -> trace -> Prop :=
| flow_uninvited e :
    settle CreateInvitation (svc [] invitation_request) = Thrown e ->
    flow (Thrown e) invited
| flow_unprintable u c :
    settle CreateInvitation (svc [] invitation_request) = Returned (invitation u c) ->
    ToString u = None ->
    flow (Thrown NotPrimitive) invited
| flow_connecting u c text t :
    settle CreateInvitation (svc [] invitation_request) = Returned (invitation u c) ->
    ToString u = Some text ->
    polling svc connections_url c GetConnectionStatus "trusted" (greeted text) Pending t ->
    flow Pending t
| flow_unconnected u c text e t :
    settle CreateInvitation (svc [] invitation_request) = Returned (invitation u c) ->
    ToString u = Some text ->
    polling svc connections_url c GetConnectionStatus "trusted" (greeted text) (Thrown e) t ->
    flow (Thrown e) t
| flow_unoffered u c text t e :
    settle CreateInvitation (svc [] invitation_request) = Returned (invitation u c) ->
    ToString u = Some text ->
    polling svc connections_url c GetConnectionStatus "trusted" (greeted text) (Returned tt) t ->
    settle CreateCredentialOffer (svc t (offer_of c)) = Thrown e ->
    flow (Thrown e) (offered c t)
| flow_issuing u c text t credentialId o t' :
    settle CreateInvitation (svc [] invitation_request) = Returned (invitation u c) ->
    ToString u = Some text ->
    polling svc connections_url c GetConnectionStatus "trusted" (greeted text) (Returned tt) t ->
    settle CreateCredentialOffer (svc t (offer_of c)) = Returned credentialId ->
    polling svc credential_url credentialId GetCredentialState "done" (offered c t) o t' ->
    flow (bindO o (fun _ => Returned JUndefined)) t'.

End Flow.

(** ** Properties of traces *)

(** The events a polling loop on [rq] can add: whole turns, and maybe a last
    turn cut short by a failed poll. *)
Inductive beats (rq : request) : trace -> Prop :=
| beats_nil : beats rq []
| beats_failed rp : beats rq [EWait 2500; EFetch rq rp]
| beats_turn rp v s :
    beats rq s -> beats rq (EWait 2500 :: EFetch rq rp :: ELog v :: s).

(** Every poll comes right after a delay of 2500 ms. *)
Definition paced (t : trace) : Prop :=
  forall pre rq rp post,
    t = pre ++ EFetch rq rp :: post ->
    method rq = GET ->
    exists before, pre = before ++ [EWait 2500].

(** No request in [t] made its operation fail. *)
Definition clean (t : trace) : Prop :=
  forall rq rp op e,
    In (EFetch rq rp) t -> issued_by rq = Some op -> settle op rp <> Thrown e.

(** The values logged, in order. *)
Fixpoint observed (t : trace) : list value :=
  match t with
  | [] => []
  | ELog v :: rest => v :: observed rest
  | _ :: rest => observed rest
  end.

(** The requests made, in order. *)
Fixpoint requests (t : trace) : list request :=
  match t with
  | [] => []
  | EFetch rq _ :: rest => rq :: requests rest
  | _ :: rest => requests rest
  end.

(** The events of a polling loop: delays of 2500 ms, polls of one request,
    and logs. *)
Definition beat_of (rq : request) (e : event) : Prop :=
  match e with
  | EWait ms => ms = 2500%Z
  | EFetch rq' _ => rq' = rq
  | ELog _ => True
  end.

(** The events of the end-to-end scenario. *)
Definition scenario_trace : trace :=
  [EFetch invitation_request (invitation_reply scenario);
   banner "https://wallet.example/inv/abc";
   EWait 5000;
   EWait 2500;
   EFetch (poll_request connections_url "conn-1") (ok (status_body (JString "pending")));
   ELog (JString "pending");
   EWait 2500;
   EFetch (poll_request connections_url "conn-1") (ok (status_body (JString "pending")));
   ELog (JString "pending");
   EWait 2500;
   EFetch (poll_request connections_url "conn-1") (ok (status_body (JString "trusted")));
   ELog (JString "trusted");
   EFetch (offer_request offer_url
             (offer_body (JString "conn-1") attributes
                (JString default_credentialDefinitionId)))
          (offer_reply scenario);
   EWait 2500;
   EFetch (poll_request credential_url "cred-1") (ok (state_body (JString "offer-sent")));
   ELog (JString "offer-sent");
   EWait 2500;
   EFetch (poll_request credential_url "cred-1") (ok (state_body (JString "done")));
   ELog (JString "done")].

(** Either no request of [t] made its operation fail, or the last event of
    [t] is the one request that did, and its error is the outcome. *)
Definition settled_by_failure {A : Type} (o : outcome A) (t : trace) : Prop :=
  clean t \/
  exists body rq rp op e,
    t = body ++ [EFetch rq rp] /\
    clean body /\
    issued_by rq = Some op /\
    settle op rp = Thrown e /\
    o = Thrown e.

(** The scenario with a connection that is lost: the second connection-status
    poll is rejected. *)
Definition dropped : script :=
  mkScript (invitation_reply scenario)
           (in_turn status_body [JString "pending"])
           (offer_reply scenario)
           (credential_replies scenario).

(** The scenario with a service that reports the connection status as the
    array [["trusted"]]. *)
Definition arrayed : script :=
  mkScript (invitation_reply scenario)
           (in_turn status_body [JArray [JString "trusted"]])
           (offer_reply scenario)
           (credential_replies scenario).

(** ** More observations *)

(** [undefined] and [null], the values a property cannot be read from. *)
Definition nullish (v : value) : bool :=
  match v with
  | JUndefined | JNull => true
  | _ => false
  end.

(** [v.k] when [v] is not nullish (for the keys of [get]). *)
Definition field (v : value) (k : string) : value :=
  match v with
  | JObject fields =>
      match assoc k fields with
      | Some x => x
      | None => JUndefined
      end
  | _ => JUndefined
  end.


Definition operation_eqb (a b : operation) : bool :=
  match a, b with
  | CreateInvitation, CreateInvitation
  | GetConnectionStatus, GetConnectionStatus
  | CreateCredentialOffer, CreateCredentialOffer
  | GetCredentialState, GetCredentialState => true
  | _, _ => false
  end.

(** The number of requests of [t] that belong to [op]. *)
Definition issued (op : operation) (t : trace) : nat :=
  length (filter (fun e => match e with
                           | EFetch rq _ =>
                               match issued_by rq with
                               | Some op' => operation_eqb op op'
                               | None => false
                               end
                           | _ => false
                           end) t).

(** The time spent in [wait], in milliseconds. *)
Fixpoint elapsed (t : trace) : Z :=
  match t with
  | [] => 0
  | EWait ms :: rest => ms + elapsed rest
  | _ :: rest => elapsed rest
  end.
(** * Properties *)

(** ** Conversions and comparisons *)

Lemma json_settled (rp : reply) : json rp <> Pending.
Proof. destruct rp as [|st [v|]]; discriminate. Qed.

Lemma get_settled (v : value) (k : string) : get v k <> Pending.
Proof. destruct v; discriminate. Qed.

Lemma extract_settled (op : operation) (response : value) :
  extract op response <> Pending.
Proof.
  destruct op; cbn [extract].
  - destruct (get response "data") as [d| |] eqn:Hd; cbn; try discriminate.
    + destruct (get d "invitationUrl") as [u| |] eqn:Hu; cbn; try discriminate.
      * destruct (get d "connection") as [c| |] eqn:Hc; cbn; try discriminate.
        -- destruct (get c "id") as [i| |] eqn:Hi; cbn; try discriminate.
           now apply get_settled in Hi.
        -- now apply get_settled in Hc.
      * now apply get_settled in Hu.
    + now apply get_settled in Hd.
  - destruct (get response "data") as [d| |] eqn:Hd; cbn; try discriminate.
    + destruct (get d "records") as [r| |] eqn:Hr; cbn; try discriminate.
      * apply get_settled.
      * now apply get_settled in Hr.
    + now apply get_settled in Hd.
  - destruct (get response "data") as [d| |] eqn:Hd; cbn; try discriminate.
    + apply get_settled.
    + now apply get_settled in Hd.
  - destruct (get response "data") as [d| |] eqn:Hd; cbn; try discriminate.
    + apply get_settled.
    + now apply get_settled in Hd.
Qed.

Lemma settle_settled (op : operation) (rp : reply) : settle op rp <> Pending.
Proof.
  unfold settle. destruct (json rp) eqn:Hj; cbn.
  - apply extract_settled.
  - discriminate.
  - now apply json_settled in Hj.
Qed.

Lemma loose_eq_settled (v : value) (w : string) : loose_eq v w <> Pending.
Proof.
  destruct v; cbn [loose_eq]; try discriminate;
    match goal with |- context [ToString ?x] => destruct (ToString x) end;
    discriminate.
Qed.

(** An array is compared through its text. *)
Example loose_eq_array :
  loose_eq (JArray [JString "trusted"]) "trusted" = Returned true.
Proof. reflexivity. Qed.

(** [==] with a word holds for the word itself and for an array or object
    whose text is the word. *)
Lemma loose_eq_true (v : value) (w : string) :
  loose_eq v w = Returned true ->
  v = JString w \/ (primitive v = false /\ ToString v = Some w).
Proof.
  destruct v; cbn [loose_eq]; intros H; try discriminate.
  - left. injection H as H. apply String.eqb_eq in H. now subst.
  - right. split; [reflexivity|].
    destruct (ToString (JArray items)) as [p|]; [|discriminate].
    injection H as H. apply String.eqb_eq in H. now subst.
  - right. split; [reflexivity|].
    destruct (ToString (JObject fields)) as [p|]; [|discriminate].
    injection H as H. apply String.eqb_eq in H. now subst.
Qed.

(** An invitation is settled as an object with its two fields. *)
Lemma settle_invitation (rp : reply) (v : value) :
  settle CreateInvitation rp = Returned v ->
  exists u c, v = invitation u c.
Proof.
  unfold settle. destruct (json rp) as [r| |]; cbn; try discriminate.
  destruct (get r "data") as [d| |]; cbn; try discriminate.
  destruct (get d "invitationUrl") as [u| |]; cbn; try discriminate.
  destruct (get d "connection") as [c| |]; cbn; try discriminate.
  destruct (get c "id") as [i| |]; cbn; try discriminate.
  intros H. injection H as <-. now exists u, i.
Qed.

(** ** The service operations *)

Lemma run_bind {A B : Type} (m : M A) (f : A -> M B) (svc : service) (t : trace) :
  run (x <- m ;; f x) svc t =
  match run m svc t with
  | (Returned a, t') => run (f a) svc t'
  | (Thrown e, t') => (Thrown e, t')
  | (Pending, t') => (Pending, t')
  end.
Proof. reflexivity. Qed.

(** [postRequest] issues one POST and parses the answer. *)
Lemma postRequest_run (endpoint : string) (data : value) (svc : service) (t : trace) :
  let rq := offer_request endpoint (default_to (JObject []) data) in
  run (postRequest (JString endpoint) data) svc t =
  (json (svc t rq), t ++ [EFetch rq (svc t rq)]).
Proof.
  cbv zeta. unfold run, postRequest, offer_request, json_header. cbn.
  unfold bindM, lift, fetch. cbn.
  now destruct (json (svc t _)).
Qed.

Lemma getRequest_run (target : string) (svc : service) (t : trace) :
  let rq := mkRequest GET target [] None in
  run (getRequest (JString target)) svc t =
  (json (svc t rq), t ++ [EFetch rq (svc t rq)]).
Proof.
  cbv zeta. unfold run, getRequest. cbn.
  unfold bindM, lift, fetch. cbn.
  now destruct (json (svc t _)).
Qed.

Lemma createInvitation_run (endpoint : string) (svc : service) (t : trace) :
  let rq := mkRequest POST endpoint json_header (Some (JObject [])) in
  run (createInvitation (JString endpoint)) svc t =
  (settle CreateInvitation (svc t rq), t ++ [EFetch rq (svc t rq)]).
Proof.
  cbv zeta. unfold createInvitation. cbn [default_to].
  rewrite run_bind, (postRequest_run endpoint JUndefined). cbn [default_to].
  unfold settle, offer_request. cbn [jsonify].
  destruct (json (svc t _)) as [r| |]; cbn; try reflexivity.
  unfold run, bindM, lift. cbn.
  destruct (get r "data") as [d| |]; cbn; try reflexivity.
  destruct (get d "invitationUrl") as [u| |]; cbn; try reflexivity.
  destruct (get d "connection") as [c| |]; cbn; try reflexivity.
  destruct (get c "id") as [i| |]; cbn; reflexivity.
Qed.

Lemma createInvitation_default (svc : service) (t : trace) :
  run (createInvitation JUndefined) svc t =
  (settle CreateInvitation (svc t invitation_request),
   t ++ [EFetch invitation_request (svc t invitation_request)]).
Proof. exact (createInvitation_run invitation_url svc t). Qed.

Lemma createCredentialOffer_run
    (connectionId attrs credentialDefinitionId : value) (endpoint : string)
    (svc : service) (t : trace) :
  let rq := offer_request endpoint
              (offer_body connectionId attrs
                 (default_to (JString default_credentialDefinitionId)
                    credentialDefinitionId)) in
  run (createCredentialOffer connectionId attrs credentialDefinitionId
         (JString endpoint)) svc t =
  (settle CreateCredentialOffer (svc t rq), t ++ [EFetch rq (svc t rq)]).
Proof.
  cbv zeta. unfold createCredentialOffer. cbn [default_to].
  rewrite run_bind.
  rewrite (postRequest_run endpoint
             (offer_body connectionId attrs
                (default_to (JString default_credentialDefinitionId)
                   credentialDefinitionId))).
  unfold offer_body at 1 2. cbn [default_to].
  unfold settle.
  destruct (json (svc t _)) as [r| |]; cbn; try reflexivity.
  unfold run, bindM, lift. cbn.
  destruct (get r "data") as [d| |]; cbn; reflexivity.
Qed.

(** A poll reads its target from the endpoint and the identifier. *)
Lemma getConnectionStatus_run (c : value) (svc : service) (t : trace) :
  run (getConnectionStatus c JUndefined) svc t =
  match ToString c with
  | Some target =>
      let rq := poll_request connections_url target in
      (settle GetConnectionStatus (svc t rq), t ++ [EFetch rq (svc t rq)])
  | None => (Thrown NotPrimitive, t)
  end.
Proof.
  unfold getConnectionStatus. cbn [default_to].
  rewrite run_bind. unfold template2, to_string. cbn [ToString].
  destruct (ToString c) as [target|]; [|reflexivity].
  unfold lift at 1, run at 1. cbv iota beta.
  rewrite run_bind, getRequest_run. fold (poll_request connections_url target).
  unfold settle.
  destruct (json (svc t _)) as [r| |]; cbn; try reflexivity.
  unfold run, bindM, lift. cbn.
  destruct (get r "data") as [d| |]; cbn; try reflexivity.
  destruct (get d "records") as [x| |]; cbn; reflexivity.
Qed.

Lemma getCredentialState_run (c : value) (svc : service) (t : trace) :
  run (getCredentialState c JUndefined) svc t =
  match ToString c with
  | Some target =>
      let rq := poll_request credential_url target in
      (settle GetCredentialState (svc t rq), t ++ [EFetch rq (svc t rq)])
  | None => (Thrown NotPrimitive, t)
  end.
Proof.
  unfold getCredentialState. cbn [default_to].
  rewrite run_bind. unfold template2, to_string. cbn [ToString].
  destruct (ToString c) as [target|]; [|reflexivity].
  unfold lift at 1, run at 1. cbv iota beta.
  rewrite run_bind, getRequest_run. fold (poll_request credential_url target).
  unfold settle.
  destruct (json (svc t _)) as [r| |]; cbn; try reflexivity.
  unfold run, bindM, lift. cbn.
  destruct (get r "data") as [d| |]; cbn; reflexivity.
Qed.

(** ** The polling loops *)

Lemma while_true_ext (b1 b2 : M bool) :
  (forall svc t, run b1 svc t = run b2 svc t) ->
  forall fuel svc t, run (while_true fuel b1) svc t = run (while_true fuel b2) svc t.
Proof.
  intros Hb fuel. induction fuel as [|fuel IH]; intros svc t; [reflexivity|].
  cbn [while_true]. rewrite !run_bind, Hb.
  destruct (run b2 svc t) as [[[|]| |] t']; try reflexivity.
  apply IH.
Qed.

(** A loop that has settled does not change when it is allowed more turns. *)
Lemma while_true_more (body : M bool) (svc : service) :
  forall fuel t o t',
    run (while_true fuel body) svc t = (o, t') ->
    o <> Pending ->
    forall extra, run (while_true (fuel + extra) body) svc t = (o, t').
Proof.
  induction fuel as [|fuel IH]; intros t o t' Hrun Ho extra.
  - cbn in Hrun. injection Hrun as <- <-. now elim Ho.
  - cbn [while_true Nat.add] in *. rewrite run_bind in *.
    destruct (run body svc t) as [[[|]| |] t1]; try assumption.
    now apply IH.
Qed.

Lemma run_wait (ms : Z) (svc : service) (t : trace) :
  run (wait ms) svc t = (Returned tt, t ++ [EWait ms]).
Proof. reflexivity. Qed.

Lemma run_lift {A : Type} (o : outcome A) (svc : service) (t : trace) :
  run (lift o) svc t = (o, t).
Proof. reflexivity. Qed.

Lemma run_log (v : value) (svc : service) (t : trace) :
  run (console_log v) svc t = (Returned tt, t ++ [ELog v]).
Proof. reflexivity. Qed.

Lemma run_ret {A : Type} (a : A) (svc : service) (t : trace) :
  run (ret a) svc t = (Returned a, t).
Proof. reflexivity. Qed.

(** One turn of a polling loop. *)
Lemma poll_body_run (svc : service) (base : string) (id : value) (op : operation)
    (word : string) (t : trace) :
  run (poll_body base id op word) svc t =
  match ToString id with
  | None => (Thrown NotPrimitive, t ++ [EWait 2500])
  | Some target =>
      match settle op (answer svc base target t) with
      | Returned v => (loose_eq v word, t ++ turn svc base target t v)
      | Thrown e =>
          (Thrown e,
           t ++ [EWait 2500;
                 EFetch (poll_request base target) (answer svc base target t)])
      | Pending =>
          (Pending,
           t ++ [EWait 2500;
                 EFetch (poll_request base target) (answer svc base target t)])
      end
  end.
Proof.
  unfold poll_body, run, answer, turn, to_string. cbn.
  unfold bindM, wait, emit, lift, fetch, console_log, emit. cbn.
  destruct (ToString id) as [target|]; [|reflexivity].
  destruct (settle op _) as [v| |]; rewrite <- ?app_assoc; cbn; reflexivity.
Qed.

(** The first loop of [tests] polls the connection of the invitation. *)
Lemma connection_wait_body (u c : value) (svc : service) (t : trace) :
  run (wait 2500 ;;
       connectionId <- lift (get (invitation u c) "connectionId") ;;
       connectionStatus <- getConnectionStatus connectionId JUndefined ;;
       console_log connectionStatus ;;
       lift (loose_eq connectionStatus "trusted")) svc t =
  run (poll_body connections_url c GetConnectionStatus "trusted") svc t.
Proof.
  rewrite poll_body_run.
  rewrite run_bind, run_wait. cbv iota beta.
  rewrite run_bind, run_lift.
  change (get (invitation u c) "connectionId") with (Returned c). cbv iota beta.
  rewrite run_bind, getConnectionStatus_run.
  unfold answer, turn.
  destruct (ToString c) as [target|]; [|reflexivity].
  cbv zeta.
  destruct (settle GetConnectionStatus _) as [v| |];
    try (rewrite <- app_assoc; reflexivity).
  rewrite run_bind, run_log. cbv iota beta. rewrite run_lift, <- !app_assoc.
  reflexivity.
Qed.

Lemma connection_wait_run (fuel : nat) (u c : value) (svc : service) (t : trace) :
  run (connection_wait fuel (invitation u c)) svc t =
  run (while_true fuel (poll_body connections_url c GetConnectionStatus "trusted")) svc t.
Proof.
  unfold connection_wait. apply while_true_ext. intros. apply connection_wait_body.
Qed.

Lemma credential_wait_run (fuel : nat) (c : value) (svc : service) (t : trace) :
  run (credential_wait fuel c) svc t =
  run (while_true fuel (poll_body credential_url c GetCredentialState "done")) svc t.
Proof.
  unfold credential_wait. apply while_true_ext. clear. intros svc t.
  rewrite poll_body_run.
  rewrite run_bind, run_wait. cbv iota beta.
  rewrite run_bind, getCredentialState_run.
  unfold answer, turn.
  destruct (ToString c) as [target|]; [|reflexivity].
  cbv zeta.
  destruct (settle GetCredentialState _) as [v| |];
    try (rewrite <- app_assoc; reflexivity).
  rewrite run_bind, run_log. cbv iota beta. rewrite run_lift, <- !app_assoc.
  reflexivity.
Qed.

(** Every run of a polling loop has the shape [polling] describes. *)
Lemma polling_run (svc : service) (base : string) (id : value) (op : operation)
    (word : string) :
  forall fuel t o t',
    run (while_true fuel (poll_body base id op word)) svc t = (o, t') ->
    polling svc base id op word t o t'.
Proof.
  induction fuel as [|fuel IH]; intros t o t' Hrun.
  - cbn in Hrun. injection Hrun as <- <-. constructor.
  - cbn [while_true] in Hrun. rewrite run_bind, poll_body_run in Hrun.
    destruct (ToString id) as [target|] eqn:Hid.
    + destruct (settle op (answer svc base target t)) as [v| |] eqn:Hv.
      * destruct (loose_eq v word) as [[|]| |] eqn:Hw.
        -- injection Hrun as <- <-. now apply polling_reached.
        -- apply IH in Hrun. now apply polling_again with target v.
        -- injection Hrun as <- <-. now apply polling_confused.
        -- now apply loose_eq_settled in Hw.
      * injection Hrun as <- <-. now apply polling_failed.
      * now apply settle_settled in Hv.
    + injection Hrun as <- <-. now apply polling_unprintable.
Qed.

(** ** The flow *)

(** Every run of [tests] has the shape [flow] describes. *)
Lemma tests_flow (svc : service) (fuel : nat) (o : outcome value) (t : trace) :
  run (tests fuel) svc [] = (o, t) -> flow svc o t.
Proof.
  unfold tests. rewrite run_bind, createInvitation_default.
  destruct (settle CreateInvitation (svc [] invitation_request)) as [inv| |] eqn:Hinv.
  - destruct (settle_invitation _ _ Hinv) as (u & c & ->).
    rewrite run_bind, run_lift.
    change (get (invitation u c) "invitationUrl") with (Returned u). cbv iota beta.
    rewrite run_bind, run_lift. unfold to_string.
    destruct (ToString u) as [text|] eqn:Hu.
    + rewrite run_bind, run_log. cbv iota beta.
      rewrite run_bind, run_wait. cbv iota beta.
      change ((([] ++ [EFetch invitation_request (svc [] invitation_request)]) ++
               [ELog (JString ("create a QR code from this and scan it with the PCM: "
                               ++ text)%string)]) ++ [EWait 5000])
        with (greeted svc text).
      rewrite run_bind, connection_wait_run.
      destruct (run (while_true fuel _) svc (greeted svc text)) as [o1 t1] eqn:Hloop.
      apply polling_run in Hloop.
      destruct o1 as [[]|e|].
      * rewrite run_bind, run_lift.
        change (get (invitation u c) "connectionId") with (Returned c). cbv iota beta.
        rewrite run_bind.
        change (createCredentialOffer c attributes JUndefined JUndefined)
          with (createCredentialOffer c attributes JUndefined (JString offer_url)).
        rewrite createCredentialOffer_run. cbv zeta. cbn [default_to].
        fold (offer_of c). fold (offered svc c t1).
        destruct (settle CreateCredentialOffer (svc t1 (offer_of c)))
          as [credentialId|e|] eqn:Hoffer.
        -- rewrite run_bind, credential_wait_run.
           destruct (run (while_true fuel _) svc (offered svc c t1)) as [o2 t2] eqn:Hloop2.
           apply polling_run in Hloop2.
           intros H.
           assert (o = bindO o2 (fun _ => Returned JUndefined) /\ t = t2) as [-> ->].
           { destruct o2 as [[]| |]; rewrite ?run_ret in H; now injection H as <- <-. }
           eapply flow_issuing; eassumption.
        -- intros H. injection H as <- <-. eapply flow_unoffered; eassumption.
        -- now apply settle_settled in Hoffer.
      * intros H. injection H as <- <-. eapply flow_unconnected; eassumption.
      * intros H. injection H as <- <-. eapply flow_connecting; eassumption.
    + intros H. injection H as <- <-. eapply flow_unprintable; eassumption.
  - intros H. injection H as <- <-. now apply flow_uninvited.
  - now apply settle_settled in Hinv.
Qed.

(** A run of [tests] that has settled is the same under any larger bound. *)
Lemma tests_more (svc : service) (fuel : nat) (o : outcome value) (t : trace) :
  run (tests fuel) svc [] = (o, t) ->
  o <> Pending ->
  forall extra, run (tests (fuel + extra)) svc [] = (o, t).
Proof.
  intros Hrun Ho extra. unfold tests in *. rewrite run_bind in *.
  destruct (run (createInvitation JUndefined) svc []) as [[inv| |] t0]; try assumption.
  rewrite run_bind, run_lift in *.
  destruct (get inv "invitationUrl") as [u| |]; try assumption.
  rewrite run_bind, run_lift in *.
  destruct (to_string u) as [text| |]; try assumption.
  rewrite run_bind, run_log in *. cbv iota beta in *.
  rewrite run_bind, run_wait in *. cbv iota beta in *.
  rewrite run_bind in *.
  destruct (run (connection_wait fuel inv) svc _) as [o1 t1] eqn:Hloop.
  unfold connection_wait in *.
  destruct o1 as [[]|e|].
  - rewrite (while_true_more _ _ _ _ _ _ Hloop) by discriminate.
    rewrite run_bind, run_lift in *.
    destruct (get inv "connectionId") as [c| |]; try assumption.
    rewrite run_bind in *.
    destruct (run (createCredentialOffer c attributes JUndefined JUndefined) svc t1)
      as [[credentialId| |] t2]; try assumption.
    rewrite run_bind in *.
    destruct (run (credential_wait fuel credentialId) svc t2) as [o2 t3] eqn:Hloop2.
    unfold credential_wait in *.
    destruct o2 as [[]|e|].
    + now rewrite (while_true_more _ _ _ _ _ _ Hloop2) by discriminate.
    + now rewrite (while_true_more _ _ _ _ _ _ Hloop2) by discriminate.
    + injection Hrun as <- _. now elim Ho.
  - now rewrite (while_true_more _ _ _ _ _ _ Hloop) by discriminate.
  - injection Hrun as <- _. now elim Ho.
Qed.

(** ** Which operation a request belongs to *)

Lemma prefix_append (a b : string) : String.prefix a (a ++ b)%string = true.
Proof.
  induction a as [|c a IH]; cbn.
  - now destruct b.
  - destruct (ascii_dec c c); [exact IH|congruence].
Qed.

Lemma connection_poll_issued (target : string) :
  issued_by (poll_request connections_url target) = Some GetConnectionStatus.
Proof.
  unfold issued_by, poll_request. cbn [method url].
  now rewrite prefix_append.
Qed.

Lemma credential_poll_issued (target : string) :
  issued_by (poll_request credential_url target) = Some GetCredentialState.
Proof.
  unfold issued_by, poll_request. cbn [method url].
  rewrite prefix_append.
  replace (String.prefix connections_url (credential_url ++ target)%string)
    with false by reflexivity.
  reflexivity.
Qed.

(** ** Lists of events *)

Lemma polls_app (a b : trace) : polls (a ++ b) = polls a + polls b.
Proof. unfold polls. now rewrite filter_app, length_app. Qed.

Lemma polls_of_app (op : operation) (a b : trace) :
  polls_of op (a ++ b) = polls_of op a + polls_of op b.
Proof. unfold polls_of. now rewrite filter_app, length_app. Qed.

Lemma observed_app (a b : trace) : observed (a ++ b) = observed a ++ observed b.
Proof.
  induction a as [|[rq rp|ms|v] a IH]; cbn; [reflexivity| | |]; now rewrite ?IH.
Qed.

(** An event of [a ++ s] that is not in [a] lies in [s]. *)
Lemma split_beyond (a s pre post : trace) (e : event) :
  a ++ s = pre ++ e :: post ->
  ~ In e a ->
  exists mid, pre = a ++ mid /\ s = mid ++ e :: post.
Proof.
  intros H Ha. apply app_eq_app in H as [l [[-> H]|[-> H]]].
  - destruct l as [|x l].
    + exists []. cbn in H. rewrite !app_nil_r. now split.
    + cbn in H. injection H as <- _. elim Ha. apply in_or_app. right. now left.
  - now exists l.
Qed.

(** The last event of a trace that ends with [x]. *)
Lemma split_last (pre post body : trace) (e x : event) :
  pre ++ e :: post = body ++ [x] ->
  (post = [] /\ pre = body /\ e = x) \/ In e body.
Proof.
  intros H. destruct post as [|y post] using rev_ind.
  - apply app_inj_tail in H as [-> ->]. now left.
  - clear IHpost. right.
    change (pre ++ e :: post ++ [y]) with (pre ++ (e :: post) ++ [y]) in H.
    rewrite app_assoc in H. apply app_inj_tail in H as [<- _].
    apply in_or_app. right. now left.
Qed.

(** ** What a polling loop adds to the trace *)

Lemma polling_beats (svc : service) (base : string) (id : value) (op : operation)
    (word : string) (t : trace) (o : outcome unit) (t' : trace) :
  polling svc base id op word t o t' ->
  match ToString id with
  | Some target => exists s, t' = t ++ s /\ beats (poll_request base target) s
  | None => t' = t \/ t' = t ++ [EWait 2500]
  end.
Proof.
  induction 1 as [t|t Hid|t target e Hid Hs|t target v e Hid Hs Hw
                  |t target v Hid Hs Hw|t target v o t' Hid Hs Hw Hrest IH].
  - destruct (ToString id); [|now left].
    exists []. split; [now rewrite app_nil_r|constructor].
  - rewrite Hid. now right.
  - rewrite Hid. eexists. split; [reflexivity|constructor].
  - rewrite Hid. eexists. split; [reflexivity|]. unfold turn. repeat constructor.
  - rewrite Hid. eexists. split; [reflexivity|]. unfold turn. repeat constructor.
  - rewrite Hid in *. destruct IH as (s & -> & Hb).
    exists (turn svc base target t v ++ s). split; [now rewrite app_assoc|].
    unfold turn. cbn. now constructor.
Qed.

Lemma polling_extends (svc : service) (base : string) (id : value) (op : operation)
    (word : string) (t : trace) (o : outcome unit) (t' : trace) :
  polling svc base id op word t o t' -> exists s, t' = t ++ s.
Proof.
  intros H. apply polling_beats in H. destruct (ToString id) as [target|].
  - destruct H as (s & -> & _). now exists s.
  - destruct H as [->| ->]; [exists []; now rewrite app_nil_r|now eexists].
Qed.

Lemma beats_counts (rq : request) (s : trace) :
  method rq = GET -> beats rq s -> delays s = polls s.
Proof.
  intros Hget H. induction H as [|rp|rp v s' _ IH].
  - reflexivity.
  - unfold delays, polls. cbn. now rewrite Hget.
  - unfold delays, polls in *. cbn. rewrite Hget. cbn. now rewrite IH.
Qed.

Lemma beats_events (rq : request) (s : trace) :
  beats rq s -> Forall (beat_of rq) s.
Proof. induction 1; repeat constructor; assumption. Qed.

Lemma beats_paced (rq : request) (s : trace) : beats rq s -> paced s.
Proof.
  intros H. induction H as [|rp|rp v s' _ IH]; intros pre rq' rp' post Heq Hget.
  - now destruct pre.
  - destruct pre as [|a [|b [|c pre]]]; cbn in Heq; try discriminate.
    inversion Heq; subst. now exists [].
  - destruct pre as [|a [|b [|c pre]]]; cbn in Heq; try discriminate.
    + inversion Heq; subst. now exists [].
    + inversion Heq as [[Ea Eb Ec Es]].
      destruct (IH _ _ _ _ Es Hget) as [before ->].
      now exists (EWait 2500 :: EFetch rq rp :: ELog v :: before).
Qed.

Lemma paced_app (a s : trace) :
  paced a -> paced s ->
  (forall rq rp s', s = EFetch rq rp :: s' -> method rq <> GET) ->
  paced (a ++ s).
Proof.
  intros Ha Hs Hhead pre rq rp post Heq Hget.
  apply app_eq_app in Heq as [l [[-> H]|[-> H]]].
  - destruct l as [|x l].
    + cbn in H. symmetry in H. now apply Hhead in H.
    + cbn in H. injection H as <- _.
      exact (Ha pre rq rp l eq_refl Hget).
  - destruct (Hs _ _ _ _ H Hget) as [before ->].
    exists (a ++ before). now rewrite app_assoc.
Qed.

(** ** The service operations and their answers *)

Lemma jsonify_attributes (attrs : list (string * string)) :
  jsonify (JArray (map (fun a => attribute (fst a) (snd a)) attrs)) =
  Some (JArray (map (fun a => attribute (fst a) (snd a)) attrs)).
Proof.
  cbn [jsonify]. rewrite map_map. reflexivity.
Qed.

(** C5: [createCredentialOffer] sends exactly one POST to the endpoint, whose
    body is the object with [connectionId], [credentialDefinitionId], an empty
    [comment], the caller's attributes as they were given (same pairs, same
    order) and [autoAcceptCredential: "always"]; and from a response whose
    [data] has an [id] it returns that [id]. *)
Theorem createCredentialOffer_request
    (connectionId credentialDefinitionId endpoint : string)
    (attrs : list (string * string)) (svc : service) (t : trace) :
  let sent := JArray (map (fun a => attribute (fst a) (snd a)) attrs) in
  let rq :=
    mkRequest POST endpoint [("Content-Type", "application/json")]
      (Some (JObject [("connectionId", JString connectionId);
                      ("credentialDefinitionId", JString credentialDefinitionId);
                      ("comment", JString "");
                      ("attributes", sent);
                      ("autoAcceptCredential", JString "always")])) in
  let offer :=
    run (createCredentialOffer (JString connectionId) sent
           (JString credentialDefinitionId) (JString endpoint)) svc t in
  snd offer = t ++ [EFetch rq (svc t rq)] /\
  (forall status response data id,
      svc t rq = Response status (Some (JObject response)) ->
      assoc "data" response = Some (JObject data) ->
      assoc "id" data = Some id ->
      fst offer = Returned id).
Proof.
  cbv zeta. rewrite createCredentialOffer_run. cbv zeta. cbn [default_to].
  unfold offer_request, offer_body, json_header.
  set (sent := JArray _).
  assert (Hsent : jsonify sent = Some sent) by apply jsonify_attributes.
  cbn [jsonify]. rewrite Hsent. cbn [fst snd]. split; [reflexivity|].
  intros status response data id Hrp Hdata Hid.
  rewrite Hrp. unfold settle. cbn [json bindO extract get].
  rewrite Hdata. cbn [bindO get]. now rewrite Hid.
Qed.

Lemma createCredentialOffer_request_witness :
  fst (run (createCredentialOffer (JString "conn-1")
              (JArray (map (fun a => attribute (fst a) (snd a))
                         [("grade", "15/15 - passed")]))
              (JString "def-1") (JString offer_url))
         (scripted scenario) []) = Returned (JString "cred-1").
Proof.
  refine (proj2 (createCredentialOffer_request "conn-1" "def-1" offer_url
                   [("grade", "15/15 - passed")] (scripted scenario) [])
            200 [("data", JObject [("id", JString "cred-1")])]
            [("id", JString "cred-1")] (JString "cred-1") _ _ _);
    reflexivity.
Defined.

(** C6: on a response that has [data.invitationUrl] and [data.connection.id],
    [createInvitation] returns the record made of exactly these two values. *)
Theorem createInvitation_fields
    (url : value) (endpoint : string) (svc : service) (t : trace) (status : nat)
    (response data connection : list (string * value)) (invitationUrl id : value) :
  let rq := mkRequest POST endpoint [("Content-Type", "application/json")]
              (Some (JObject [])) in
  default_to (JString invitation_url) url = JString endpoint ->
  svc t rq = Response status (Some (JObject response)) ->
  assoc "data" response = Some (JObject data) ->
  assoc "invitationUrl" data = Some invitationUrl ->
  assoc "connection" data = Some (JObject connection) ->
  assoc "id" connection = Some id ->
  run (createInvitation url) svc t =
  (Returned (JObject [("invitationUrl", invitationUrl); ("connectionId", id)]),
   t ++ [EFetch rq (svc t rq)]).
Proof.
  cbv zeta. intros Hurl Hrp Hdata Hinv Hconn Hid.
  assert (E : run (createInvitation url) svc t =
              run (createInvitation (JString endpoint)) svc t).
  { unfold createInvitation. now rewrite Hurl. }
  rewrite E, createInvitation_run. cbv zeta. unfold json_header.
  rewrite Hrp. unfold settle. cbn [json bindO extract get].
  rewrite Hdata. cbn [bindO get]. rewrite Hinv, Hconn. cbn [bindO get].
  now rewrite Hid.
Qed.

(** C7, as the code has it: when the response to the offer has a [data]
    object without [id], [createCredentialOffer] does not fail: it returns
    [undefined]. *)
Theorem createCredentialOffer_missing_id
    (connectionId attrs credentialDefinitionId : value) (endpoint : string)
    (svc : service) (t : trace) (status : nat)
    (response data : list (string * value)) :
  let rq := offer_request endpoint
              (offer_body connectionId attrs
                 (default_to (JString default_credentialDefinitionId)
                    credentialDefinitionId)) in
  svc t rq = Response status (Some (JObject response)) ->
  assoc "data" response = Some (JObject data) ->
  assoc "id" data = None ->
  run (createCredentialOffer connectionId attrs credentialDefinitionId
         (JString endpoint)) svc t =
  (Returned JUndefined, t ++ [EFetch rq (svc t rq)]).
Proof.
  cbv zeta. intros Hrp Hdata Hid. rewrite createCredentialOffer_run. cbv zeta.
  rewrite Hrp. unfold settle. cbn [json bindO extract get].
  rewrite Hdata. cbn [bindO get]. now rewrite Hid.
Qed.

Lemma createInvitation_fields_witness :
  run (createInvitation JUndefined) (scripted scenario) [] =
  (Returned (JObject [("invitationUrl", JString "https://wallet.example/inv/abc");
                      ("connectionId", JString "conn-1")]),
   [EFetch invitation_request (invitation_reply scenario)]).
Proof.
  apply (createInvitation_fields JUndefined invitation_url (scripted scenario) [] 200
           [("data",
             JObject [("invitationUrl", JString "https://wallet.example/inv/abc");
                      ("connection", JObject [("id", JString "conn-1")])])]
           [("invitationUrl", JString "https://wallet.example/inv/abc");
            ("connection", JObject [("id", JString "conn-1")])]
           [("id", JString "conn-1")]);
    reflexivity.
Defined.

(** A service whose answer to everything is [{data: {}}]. *)
Lemma createCredentialOffer_missing_id_witness :
  fst (run (createCredentialOffer (JString "conn-1") attributes JUndefined
              (JString offer_url))
         (fun _ _ => ok (JObject [("data", JObject [])])) []) =
  Returned JUndefined.
Proof.
  rewrite (createCredentialOffer_missing_id (JString "conn-1") attributes
             JUndefined offer_url
             (fun _ _ => ok (JObject [("data", JObject [])])) [] 200
             [("data", JObject [])] [] eq_refl eq_refl eq_refl).
  reflexivity.
Defined.

(** C7 as stated fails: the response [{data: {}}] has no [data.id], and
    [createCredentialOffer] returns [undefined] instead of failing. *)
Lemma createCredentialOffer_undefined_id :
  fst (run (createCredentialOffer (JString "conn-1") attributes JUndefined JUndefined)
         (fun _ _ => ok (JObject [("data", JObject [])])) []) =
  Returned JUndefined /\
  ~ (exists e,
        fst (run (createCredentialOffer (JString "conn-1") attributes JUndefined
                    JUndefined)
               (fun _ _ => ok (JObject [("data", JObject [])])) []) = Thrown e).
Proof.
  split; [reflexivity|]. intros [e H]. discriminate H.
Qed.

(** ** The loops against a scripted service *)

Lemma scripted_connection_answer (s : script) (target : string) (t : trace) :
  answer (scripted s) connections_url target t =
  connection_replies s (polls_of GetConnectionStatus t).
Proof.
  unfold answer, scripted. rewrite connection_poll_issued, polls_of_app.
  cbn. now rewrite Nat.add_0_r.
Qed.

Lemma scripted_credential_answer (s : script) (target : string) (t : trace) :
  answer (scripted s) credential_url target t =
  credential_replies s (polls_of GetCredentialState t).
Proof.
  unfold answer, scripted. rewrite credential_poll_issued, polls_of_app.
  cbn. now rewrite Nat.add_0_r.
Qed.

Lemma connection_turn_counted (svc : service) (target : string) (t : trace) (v : value) :
  polls_of GetConnectionStatus (t ++ turn svc connections_url target t v) =
  S (polls_of GetConnectionStatus t).
Proof.
  rewrite polls_of_app. unfold turn, polls_of at 2. cbn [filter].
  rewrite connection_poll_issued. cbn. lia.
Qed.

(** The first loop against statuses that are not yet ['trusted'] and then
    one that is. *)
Lemma connection_polling_script (s : script) (c : value) (target : string)
    (final : value) :
  ToString c = Some target ->
  loose_eq final "trusted" = Returned true ->
  forall (vs : list value) (t : trace) (fuel : nat),
    Forall (fun v => loose_eq v "trusted" = Returned false) vs ->
    (forall i v, nth_error (vs ++ [final]) i = Some v ->
                 settle GetConnectionStatus
                   (connection_replies s (polls_of GetConnectionStatus t + i)) =
                 Returned v) ->
    length vs < fuel ->
    exists tail,
      run (while_true fuel (poll_body connections_url c GetConnectionStatus "trusted"))
        (scripted s) t = (Returned tt, t ++ tail) /\
      observed tail = vs ++ [final] /\
      polls tail = S (length vs) /\
      beats (poll_request connections_url target) tail.
Proof.
  intros Hc Hfinal. induction vs as [|v vs IH]; intros t fuel Hvs Hscript Hfuel.
  - destruct fuel as [|fuel]; [cbn in Hfuel; lia|].
    cbn [while_true]. rewrite run_bind, poll_body_run, Hc.
    rewrite scripted_connection_answer.
    rewrite <- (Nat.add_0_r (polls_of GetConnectionStatus t)).
    rewrite (Hscript 0 final eq_refl), Hfinal.
    eexists. split; [reflexivity|]. repeat split. unfold turn. repeat constructor.
  - destruct fuel as [|fuel]; [cbn in Hfuel; lia|].
    cbn [while_true]. rewrite run_bind, poll_body_run, Hc.
    rewrite scripted_connection_answer.
    rewrite <- (Nat.add_0_r (polls_of GetConnectionStatus t)).
    rewrite (Hscript 0 v eq_refl).
    inversion Hvs as [|? ? Hv Hvs']; subst. rewrite Hv.
    destruct (IH (t ++ turn (scripted s) connections_url target t v) fuel Hvs')
      as (tail & Hrun & Hobs & Hpolls & Hbeats).
    + intros i w Hi. rewrite connection_turn_counted.
      replace (S (polls_of GetConnectionStatus t) + i)
        with (polls_of GetConnectionStatus t + S i) by lia.
      now apply Hscript.
    + cbn in Hfuel. lia.
    + exists (turn (scripted s) connections_url target t v ++ tail).
      rewrite Hrun, app_assoc. split; [reflexivity|].
      rewrite observed_app, polls_app, Hobs, Hpolls.
      repeat split. unfold turn. cbn. now constructor.
Qed.

(** A polling loop whose polls never show the word never settles: it makes
    as many polls as it is allowed turns. *)
Lemma polling_forever (svc : service) (base : string) (id : value) (op : operation)
    (word target : string) :
  ToString id = Some target ->
  (forall t, exists v, settle op (answer svc base target t) = Returned v /\
                       loose_eq v word = Returned false) ->
  forall fuel t,
    exists tail,
      run (while_true fuel (poll_body base id op word)) svc t = (Pending, t ++ tail) /\
      polls tail = fuel /\
      beats (poll_request base target) tail.
Proof.
  intros Hid Hnever. induction fuel as [|fuel IH]; intros t.
  - exists []. rewrite app_nil_r. repeat split. constructor.
  - cbn [while_true]. rewrite run_bind, poll_body_run, Hid.
    destruct (Hnever t) as (v & -> & ->).
    destruct (IH (t ++ turn svc base target t v)) as (tail & Hrun & Hpolls & Hbeats).
    exists (turn svc base target t v ++ tail).
    rewrite Hrun, app_assoc. split; [reflexivity|].
    rewrite polls_app, Hpolls. split; [reflexivity|].
    unfold turn. cbn. now constructor.
Qed.

Lemma settle_state (v : value) :
  settle GetCredentialState (ok (state_body v)) = Returned v.
Proof. reflexivity. Qed.

Lemma not_yet (word : string) (statuses : list string) :
  Forall (fun status => status <> word) statuses ->
  Forall (fun v => loose_eq v word = Returned false) (map JString statuses).
Proof.
  induction 1 as [|x l Hx _ IH]; constructor; [|exact IH].
  cbn. apply String.eqb_neq in Hx. now rewrite Hx.
Qed.

(** C1, as the code has it: against statuses of which the last one is the
    first ['trusted'], the connection loop ends; it has made one poll per
    status, each after its own delay of 2500 ms (as many delays as polls), and
    the statuses it saw are those of the sequence, ['trusted'] last. *)
Theorem connection_wait_trusted
    (statuses : list string) (s : script) (invitationUrl : value)
    (connectionId : string) (t : trace) (fuel : nat) :
  Forall (fun status => status <> "trusted") statuses ->
  connection_replies s =
    in_turn status_body (map JString (statuses ++ ["trusted"])) ->
  polls_of GetConnectionStatus t = 0 ->
  length statuses < fuel ->
  exists tail,
    run (connection_wait fuel (invitation invitationUrl (JString connectionId)))
      (scripted s) t = (Returned tt, t ++ tail) /\
    observed tail = map JString (statuses ++ ["trusted"]) /\
    last (observed tail) JUndefined = JString "trusted" /\
    polls tail = length (statuses ++ ["trusted"]) /\
    delays tail = length (statuses ++ ["trusted"]) /\
    paced tail.
Proof.
  intros Hnot Hscript Hfresh Hfuel. rewrite connection_wait_run.
  destruct (connection_polling_script s (JString connectionId) connectionId
              (JString "trusted") eq_refl eq_refl (map JString statuses) t fuel)
    as (tail & Hrun & Hobs & Hpolls & Hbeats).
  - now apply not_yet.
  - intros i v Hi. rewrite Hfresh, Hscript. cbn [Nat.add].
    unfold in_turn. rewrite map_app. cbn [map]. now rewrite Hi.
  - now rewrite length_map.
  - exists tail. rewrite Hrun, Hobs, map_app. cbn [map].
    rewrite last_last, length_app, Hpolls, length_map. cbn [length].
    repeat split; try lia.
    + rewrite (beats_counts (poll_request connections_url connectionId) tail
                 eq_refl Hbeats), Hpolls, length_map. lia.
    + now apply beats_paced in Hbeats.
Qed.

Lemma connection_wait_trusted_witness :
  exists tail,
    run (connection_wait 3 (invitation (JString "https://wallet.example/inv/abc")
                              (JString "conn-1")))
      (scripted scenario) [] = (Returned tt, [] ++ tail) /\
    observed tail = map JString (["pending"; "pending"] ++ ["trusted"]) /\
    last (observed tail) JUndefined = JString "trusted" /\
    polls tail = length (["pending"; "pending"] ++ ["trusted"]) /\
    delays tail = length (["pending"; "pending"] ++ ["trusted"]) /\
    paced tail.
Proof.
  apply (connection_wait_trusted ["pending"; "pending"] scenario
           (JString "https://wallet.example/inv/abc") "conn-1" [] 3).
  - repeat constructor; discriminate.
  - reflexivity.
  - reflexivity.
  - cbn. lia.
Defined.

(** C1 as stated fails.  For the statuses [pending, pending, trusted] the
    loop makes 3 polls and 3 delays, not 2; and for [trusted, trusted], which
    also ends in ['trusted'], it makes one poll, not one per status. *)
Lemma connection_wait_three_delays :
  (exists tail,
      run (connection_wait 3 (invitation (JString "https://wallet.example/inv/abc")
                                (JString "conn-1")))
        (scripted scenario) [] = (Returned tt, tail) /\
      polls tail = 3 /\ delays tail = 3 /\ delays tail <> 2) /\
  (exists tail,
      run (connection_wait 3 (invitation (JString "https://wallet.example/inv/abc")
                                (JString "conn-1")))
        (scripted (mkScript (invitation_reply scenario)
                     (in_turn status_body [JString "trusted"; JString "trusted"])
                     (offer_reply scenario) (credential_replies scenario))) [] =
      (Returned tt, tail) /\
      polls tail = 1 /\ polls tail <> 2).
Proof.
  split.
  - eexists. split; [vm_compute; reflexivity|].
    repeat split. vm_compute. discriminate.
  - eexists. split; [vm_compute; reflexivity|].
    repeat split. vm_compute. discriminate.
Qed.

(** C3: against credential states that are never ['done'] the credential
    loop does not end: however many turns it is allowed it is still pending
    after them, with one poll made per turn, so that it makes more than [n]
    polls for every [n]. *)
Theorem credential_wait_never_done
    (states : nat -> string) (s : script) (credentialId : string) (t : trace) :
  (forall k, states k <> "done") ->
  (forall k, credential_replies s k = ok (state_body (JString (states k)))) ->
  (forall fuel,
      exists tail,
        run (credential_wait fuel (JString credentialId)) (scripted s) t =
        (Pending, t ++ tail) /\
        polls tail = fuel) /\
  (forall n,
      exists fuel tail,
        run (credential_wait fuel (JString credentialId)) (scripted s) t =
        (Pending, t ++ tail) /\
        n < polls tail).
Proof.
  intros Hnever Hscript.
  assert (Hloop : forall fuel,
             exists tail,
               run (credential_wait fuel (JString credentialId)) (scripted s) t =
               (Pending, t ++ tail) /\ polls tail = fuel).
  { intros fuel. rewrite credential_wait_run.
    destruct (polling_forever (scripted s) credential_url (JString credentialId)
                GetCredentialState "done" credentialId eq_refl) with (fuel := fuel) (t := t)
      as (tail & Hrun & Hpolls & _).
    - intros t0. exists (JString (states (polls_of GetCredentialState t0))).
      rewrite scripted_credential_answer, Hscript, settle_state.
      split; [reflexivity|]. cbn.
      specialize (Hnever (polls_of GetCredentialState t0)).
      apply String.eqb_neq in Hnever. now rewrite Hnever.
    - now exists tail. }
  split; [exact Hloop|].
  intros n. destruct (Hloop (S n)) as (tail & Hrun & Hpolls).
  exists (S n), tail. split; [exact Hrun|lia].
Qed.

Lemma credential_wait_never_done_witness :
  (forall fuel,
      exists tail,
        run (credential_wait fuel (JString "cred-1"))
          (scripted (mkScript NetworkFailure (fun _ => NetworkFailure) NetworkFailure
                       (fun _ => ok (state_body (JString "offer-sent"))))) [] =
        (Pending, [] ++ tail) /\
        polls tail = fuel) /\
  (forall n,
      exists fuel tail,
        run (credential_wait fuel (JString "cred-1"))
          (scripted (mkScript NetworkFailure (fun _ => NetworkFailure) NetworkFailure
                       (fun _ => ok (state_body (JString "offer-sent"))))) [] =
        (Pending, [] ++ tail) /\
        n < polls tail).
Proof.
  apply (credential_wait_never_done (fun _ => "offer-sent")).
  - intros k. discriminate.
  - intros k. reflexivity.
Defined.

(** ** The end-to-end scenario *)

(** C2: in the scenario the flow completes, whatever bound of at least three
    turns its loops are given; the credential offer returned ["cred-1"]; and
    the requests were, in this order, the invitation, three connection-status
    polls, the offer, and two credential-state polls on ["cred-1"]. *)
Theorem scenario_completes (extra : nat) :
  run (tests (3 + extra)) (scripted scenario) [] =
    (Returned JUndefined, scenario_trace) /\
  settle CreateCredentialOffer (offer_reply scenario) = Returned (JString "cred-1") /\
  requests scenario_trace =
    [invitation_request;
     poll_request connections_url "conn-1";
     poll_request connections_url "conn-1";
     poll_request connections_url "conn-1";
     offer_request offer_url
       (offer_body (JString "conn-1") attributes
          (JString default_credentialDefinitionId));
     poll_request credential_url "cred-1";
     poll_request credential_url "cred-1"] /\
  polls_of GetConnectionStatus scenario_trace = 3 /\
  polls_of GetCredentialState scenario_trace = 2.
Proof.
  split; [vm_compute; reflexivity|].
  split; [reflexivity|].
  split; [reflexivity|].
  split; reflexivity.
Qed.

(** ** The pace of the flow *)

Lemma polling_tail (svc : service) (base : string) (id : value) (op : operation)
    (word : string) (t : trace) (o : outcome unit) (t' : trace) :
  polling svc base id op word t o t' ->
  exists s,
    t' = t ++ s /\
    paced s /\
    (s = [] \/ exists s', s = EWait 2500 :: s') /\
    (forall ms, In (EWait ms) s -> ms = 2500%Z) /\
    (forall rq rp, In (EFetch rq rp) s ->
                   exists target, ToString id = Some target /\
                                  rq = poll_request base target).
Proof.
  intros H. apply polling_beats in H.
  destruct (ToString id) as [target|].
  - destruct H as (s & -> & Hb). exists s. split; [reflexivity|].
    split; [now apply beats_paced in Hb|].
    split; [destruct Hb; [now left|right; eauto|right; eauto]|].
    apply beats_events in Hb. rewrite Forall_forall in Hb. split.
    + intros ms Hin. exact (Hb _ Hin).
    + intros rq rp Hin. exists target. split; [reflexivity|exact (Hb _ Hin)].
  - destruct H as [->| ->].
    + exists []. rewrite app_nil_r. repeat split; try (now left); try easy.
      intros pre rq rp post Heq. now destruct pre.
    + exists [EWait 2500]. repeat split.
      * intros pre rq rp post Heq. destruct pre as [|a [|b pre]]; discriminate.
      * right. now exists [].
      * intros ms [Hin|[]]. now injection Hin as <-.
      * intros rq rp [Hin|[]]. discriminate.
Qed.

(** A loop that has added nothing to the trace has not started. *)
Lemma polling_idle (svc : service) (base : string) (id : value) (op : operation)
    (word : string) (t : trace) (o : outcome unit) :
  polling svc base id op word t o (t ++ []) -> o = Pending.
Proof.
  intros H. remember (t ++ []) as t' eqn:Et.
  assert (stuck : forall s, s <> [] -> t ++ s <> t ++ []).
  { intros s Hs E. apply app_inv_head in E. contradiction. }
  destruct H as [t|t Hid|t target e Hid Hs|t target v e Hid Hs Hw
                 |t target v Hid Hs Hw|t target v o t' Hid Hs Hw Hrest];
    try reflexivity; try (now apply stuck in Et).
  apply polling_extends in Hrest as [s ->]. rewrite <- app_assoc in Et.
  now apply stuck in Et.
Qed.

Lemma paced_post (rq : request) (rp : reply) :
  method rq = POST -> paced [EFetch rq rp].
Proof.
  intros Hpost pre rq' rp' post Heq Hget.
  destruct pre as [|a [|b pre]]; try discriminate.
  injection Heq as <- _ _. congruence.
Qed.

(** What [tests] does after the invitation has been shown. *)
Lemma flow_trace (svc : service) (o : outcome value) (t : trace) :
  flow svc o t ->
  t = invited svc \/
  exists u c text rest,
    settle CreateInvitation (svc [] invitation_request) = Returned (invitation u c) /\
    ToString u = Some text /\
    t = greeted svc text ++ rest /\
    paced rest /\
    (rest = [] \/ exists rest', rest = EWait 2500 :: rest') /\
    (forall ms, In (EWait ms) rest -> ms = 2500%Z).
Proof.
  destruct 1 as [e Hinv|u c Hinv Hu|u c text t Hinv Hu Hloop|u c text e t Hinv Hu Hloop
                 |u c text t e Hinv Hu Hloop Hoffer
                 |u c text t credentialId o t' Hinv Hu Hloop Hoffer Hloop2];
    [now left|now left| | | |]; right; exists u, c, text.
  - destruct (polling_tail _ _ _ _ _ _ _ _ Hloop) as (s & -> & Hp & Hh & Hw & _). now exists s.
  - destruct (polling_tail _ _ _ _ _ _ _ _ Hloop) as (s & -> & Hp & Hh & Hw & _). now exists s.
  - destruct (polling_tail _ _ _ _ _ _ _ _ Hloop) as (s & -> & Hp & Hh & Hw & _).
    exists (s ++ [EFetch (offer_of c) (svc (greeted svc text ++ s) (offer_of c))]).
    unfold offered. rewrite <- app_assoc. repeat split; try assumption.
    + apply paced_app; [assumption|now apply paced_post|].
      intros rq rp s' Heq. now injection Heq as <- _ _.
    + destruct Hh as [->|[s' ->]]; [|right; eexists; reflexivity].
      now apply polling_idle in Hloop.
    + intros ms Hin. apply in_app_or in Hin as [Hin|[Hin|[]]]; [now apply Hw|discriminate].
  - destruct (polling_tail _ _ _ _ _ _ _ _ Hloop) as (s & -> & Hp & Hh & Hw & _).
    destruct (polling_tail _ _ _ _ _ _ _ _ Hloop2) as (s2 & -> & Hp2 & Hh2 & Hw2 & _).
    exists (s ++ [EFetch (offer_of c) (svc (greeted svc text ++ s) (offer_of c))] ++ s2).
    unfold offered. rewrite <- !app_assoc. repeat split; try assumption.
    + apply paced_app; [assumption| |].
      * apply paced_app; [now apply paced_post|assumption|].
        intros rq rp s' ->. destruct Hh2 as [?|[? ?]]; discriminate.
      * intros rq rp s' Heq. now injection Heq as <- _ _.
    + destruct Hh as [->|[s' ->]]; [|right; eexists; reflexivity].
      now apply polling_idle in Hloop.
    + intros ms Hin. apply in_app_or in Hin as [Hin|Hin]; [now apply Hw|].
      apply in_app_or in Hin as [[Hin|[]]|Hin]; [discriminate|now apply Hw2].
Qed.

(** Every request of a run belongs to one of the four operations. *)
Lemma requests_classified
    (svc : service) (fuel : nat) (o : outcome value) (t : trace) :
  run (tests fuel) svc [] = (o, t) ->
  forall rq rp, In (EFetch rq rp) t -> exists op, issued_by rq = Some op.
Proof.
  intros Hrun. apply tests_flow in Hrun. revert Hrun.
  assert (Hinvited : forall rq rp, In (EFetch rq rp) (invited svc) ->
                                   exists op, issued_by rq = Some op).
  { intros rq rp [H|[]]. injection H as <- _. now exists CreateInvitation. }
  assert (Hgreeted : forall text rq rp, In (EFetch rq rp) (greeted svc text) ->
                                        exists op, issued_by rq = Some op).
  { intros text rq rp Hin. apply in_app_or in Hin as [Hin|[Hin|[Hin|[]]]];
      try discriminate. now apply Hinvited in Hin. }
  assert (Hloop : forall base id op word t1 o1 t2,
             (forall target, issued_by (poll_request base target) = Some op) ->
             polling svc base id op word t1 o1 t2 ->
             (forall rq rp, In (EFetch rq rp) t1 -> exists op, issued_by rq = Some op) ->
             forall rq rp, In (EFetch rq rp) t2 -> exists op, issued_by rq = Some op).
  { intros base id op word t1 o1 t2 Hop Hpoll Ht1 rq rp Hin.
    destruct (polling_tail _ _ _ _ _ _ _ _ Hpoll) as (s & -> & _ & _ & _ & Hs).
    apply in_app_or in Hin as [Hin|Hin]; [now apply Ht1 in Hin|].
    apply Hs in Hin as (target & _ & ->). now exists op. }
  destruct 1 as [e Hinv|u c Hinv Hu|u c text t Hinv Hu Hpoll|u c text e t Hinv Hu Hpoll
                 |u c text t e Hinv Hu Hpoll Hoffer
                 |u c text t credentialId o t' Hinv Hu Hpoll Hoffer Hpoll2];
    try exact Hinvited.
  - apply (Hloop _ _ _ _ _ _ _ connection_poll_issued Hpoll), Hgreeted.
  - apply (Hloop _ _ _ _ _ _ _ connection_poll_issued Hpoll), Hgreeted.
  - intros rq rp Hin. apply in_app_or in Hin as [Hin|[Hin|[]]].
    + revert rq rp Hin.
      apply (Hloop _ _ _ _ _ _ _ connection_poll_issued Hpoll), Hgreeted.
    + injection Hin as <- _. now exists CreateCredentialOffer.
  - apply (Hloop _ _ _ _ _ _ _ credential_poll_issued Hpoll2).
    intros rq rp Hin. apply in_app_or in Hin as [Hin|[Hin|[]]].
    + revert rq rp Hin.
      apply (Hloop _ _ _ _ _ _ _ connection_poll_issued Hpoll), Hgreeted.
    + injection Hin as <- _. now exists CreateCredentialOffer.
Qed.

Lemma greeted_no_poll (svc : service) (text : string) (rq : request) (rp : reply) :
  method rq = GET -> ~ In (EFetch rq rp) (greeted svc text).
Proof.
  intros Hget [H|[H|[H|[]]]]; try discriminate.
  injection H as <- _. discriminate.
Qed.

(** C9: in every run of [tests], a poll is made only after the invitation
    has been created, its [invitationUrl] logged and 5000 ms waited; every
    poll of either loop comes right after a delay of 2500 ms; and every delay
    after the first 5000 ms is one of 2500 ms. *)
Theorem grace_then_paced_polls
    (svc : service) (fuel : nat) (o : outcome value) (t : trace) :
  run (tests fuel) svc [] = (o, t) ->
  (forall pre rq rp post,
      t = pre ++ EFetch rq rp :: post ->
      method rq = GET ->
      (exists u c text rest,
          settle CreateInvitation (svc [] invitation_request) =
            Returned (invitation u c) /\
          ToString u = Some text /\
          pre = EFetch invitation_request (svc [] invitation_request)
                  :: banner text :: EWait 5000 :: rest) /\
      (exists before, pre = before ++ [EWait 2500])) /\
  (forall rp0 text rest ms,
      t = EFetch invitation_request rp0 :: banner text :: EWait 5000 :: rest ->
      In (EWait ms) rest ->
      ms = 2500%Z).
Proof.
  intros Hrun. apply tests_flow, flow_trace in Hrun.
  destruct Hrun as [->|(u & c & text & rest & Hinv & Hu & -> & Hp & Hh & Hw)].
  - split.
    + intros pre rq rp post Heq Hget.
      destruct pre as [|a [|b pre]]; try discriminate.
      injection Heq as <- _ _. discriminate.
    + intros rp0 text rest ms Heq. discriminate.
  - split.
    + intros pre rq rp post Heq Hget. split.
      * apply split_beyond in Heq as (mid & -> & _);
          [|now apply greeted_no_poll].
        now exists u, c, text, mid.
      * revert pre rq rp post Heq Hget.
        change (paced (greeted svc text ++ rest)).
        apply paced_app; [| assumption |].
        -- intros pre rq rp post Heq Hget. exfalso.
           apply (greeted_no_poll svc text rq rp Hget).
           rewrite Heq. apply in_or_app. right. now left.
        -- intros rq rp s' ->. destruct Hh as [?|[? ?]]; discriminate.
    + intros rp0 text' rest' ms Heq. unfold greeted, invited in Heq.
      cbn in Heq. injection Heq as _ _ <-. apply Hw.
Qed.

Lemma grace_then_paced_polls_witness :
  (forall pre rq rp post,
      scenario_trace = pre ++ EFetch rq rp :: post ->
      method rq = GET ->
      (exists u c text rest,
          settle CreateInvitation (scripted scenario [] invitation_request) =
            Returned (invitation u c) /\
          ToString u = Some text /\
          pre = EFetch invitation_request (scripted scenario [] invitation_request)
                  :: banner text :: EWait 5000 :: rest) /\
      (exists before, pre = before ++ [EWait 2500])) /\
  (forall rp0 text rest ms,
      scenario_trace =
        EFetch invitation_request rp0 :: banner text :: EWait 5000 :: rest ->
      In (EWait ms) rest ->
      ms = 2500%Z).
Proof.
  apply (grace_then_paced_polls (scripted scenario) 3 (Returned JUndefined)
           scenario_trace).
  vm_compute. reflexivity.
Defined.

(** C10, as the code has it: in either loop every poll comes right after a
    delay of its own, the first poll of the loop included.  A loop whose
    identifier has a text has made as many delays of 2500 ms as polls; a loop
    whose identifier has none (the template literal throws after the delay)
    has made no poll and at most one delay.  A connection-status poll is made
    only after the 5000 ms that follow the invitation and one more delay of
    2500 ms. *)
Theorem every_poll_delayed (svc : service) (fuel : nat) :
  (forall u c t o t',
      run (connection_wait fuel (invitation u c)) svc t = (o, t') ->
      exists tail,
        t' = t ++ tail /\ paced tail /\
        (forall target, ToString c = Some target -> delays tail = polls tail) /\
        (ToString c = None -> polls tail = 0 /\ delays tail <= 1)) /\
  (forall c t o t',
      run (credential_wait fuel c) svc t = (o, t') ->
      exists tail,
        t' = t ++ tail /\ paced tail /\
        (forall target, ToString c = Some target -> delays tail = polls tail) /\
        (ToString c = None -> polls tail = 0 /\ delays tail <= 1)) /\
  (forall o t pre rq rp post,
      run (tests fuel) svc [] = (o, t) ->
      t = pre ++ EFetch rq rp :: post ->
      issued_by rq = Some GetConnectionStatus ->
      exists rp0 text rest,
        pre = EFetch invitation_request rp0 :: banner text :: EWait 5000
                :: EWait 2500 :: rest).
Proof.
  assert (loop : forall base id op word t o t',
             run (while_true fuel (poll_body base id op word)) svc t = (o, t') ->
             exists tail,
               t' = t ++ tail /\ paced tail /\
               (forall target, ToString id = Some target ->
                               delays tail = polls tail) /\
               (ToString id = None -> polls tail = 0 /\ delays tail <= 1)).
  { intros base id op word t o t' Hrun.
    apply polling_run in Hrun.
    destruct (polling_tail _ _ _ _ _ _ _ _ Hrun) as (s & Es & Hp & _).
    exists s. split; [exact Es|]. split; [exact Hp|].
    apply polling_beats in Hrun. split.
    - intros target Hid. rewrite Hid in Hrun. destruct Hrun as (s' & Es' & Hb).
      rewrite Es in Es'. apply app_inv_head in Es'. subst s'.
      now apply (beats_counts (poll_request base target)).
    - intros Hid. rewrite Hid in Hrun. rewrite Es in Hrun.
      destruct Hrun as [E|E].
      + rewrite <- (app_nil_r t) in E at 2. apply app_inv_head in E. subst s.
        split; [reflexivity|]. cbn. lia.
      + apply app_inv_head in E. subst s. split; [reflexivity|]. cbn. lia. }
  split; [|split].
  - intros u c t o t' Hrun. rewrite connection_wait_run in Hrun.
    now apply loop in Hrun.
  - intros c t o t' Hrun. rewrite credential_wait_run in Hrun.
    now apply loop in Hrun.
  - intros o t pre rq rp post Hrun Heq Hissued.
    assert (Hget : method rq = GET).
    { unfold issued_by in Hissued. destruct (method rq); [reflexivity|].
      destruct (String.eqb _ _); [discriminate|].
      destruct (String.eqb _ _); discriminate. }
    apply tests_flow, flow_trace in Hrun.
    destruct Hrun as [->|(u & c & text & rest & Hinv & Hu & -> & Hp & Hh & Hw)].
    + destruct pre as [|a [|b pre]]; try discriminate.
      injection Heq as <- _ _. discriminate.
    + apply split_beyond in Heq as (mid & -> & Hrest);
        [|now apply greeted_no_poll].
      destruct Hh as [->|[rest' ->]]; [now destruct mid|].
      destruct mid as [|m mid]; [discriminate|].
      injection Hrest as <- _.
      now exists (svc [] invitation_request), text, mid.
Qed.

Lemma every_poll_delayed_witness :
  exists tail,
    snd (run (connection_wait 3 (invitation (JString "https://wallet.example/inv/abc")
                                   (JString "conn-1")))
           (scripted scenario) []) = [] ++ tail /\
    paced tail /\
    (forall target, ToString (JString "conn-1") = Some target ->
                    delays tail = polls tail) /\
    (ToString (JString "conn-1") = None -> polls tail = 0 /\ delays tail <= 1).
Proof.
  apply (proj1 (every_poll_delayed (scripted scenario) 3)
           (JString "https://wallet.example/inv/abc") (JString "conn-1") []
           (fst (run (connection_wait 3
                        (invitation (JString "https://wallet.example/inv/abc")
                           (JString "conn-1")))
                   (scripted scenario) []))).
  apply surjective_pairing.
Defined.

(** C10 as stated fails: when the connection identifier is an object with a
    [toString] property of its own, the loop makes one delay and then throws
    in the template literal, before any poll. *)
Lemma connection_wait_delay_without_poll :
  run (connection_wait 1 (invitation (JString "https://wallet.example/inv/abc")
                            (JObject [("toString", JNumber "1")])))
    (scripted scenario) [] = (Thrown NotPrimitive, [EWait 2500]) /\
  delays [EWait 2500] = 1 /\ polls [EWait 2500] = 0 /\
  delays [EWait 2500] <> polls [EWait 2500].
Proof.
  split; [reflexivity|]. repeat split. discriminate.
Qed.

(** ** Failures *)

Lemma clean_nil : clean [].
Proof. intros rq rp op e []. Qed.

Lemma clean_app (a b : trace) : clean a -> clean b -> clean (a ++ b).
Proof.
  intros Ha Hb rq rp op e Hin. apply in_app_or in Hin as [Hin|Hin]; eauto.
Qed.

Lemma clean_quiet (e : event) :
  (forall rq rp, e <> EFetch rq rp) -> clean [e].
Proof. intros He rq rp op err [Hin|[]]. now apply He in Hin. Qed.

Lemma clean_fetch (rq : request) (rp : reply) (op : operation) (v : value) :
  issued_by rq = Some op -> settle op rp = Returned v -> clean [EFetch rq rp].
Proof.
  intros Hop Hv rq' rp' op' e [Hin|[]] Hop'. injection Hin as <- <-.
  rewrite Hop in Hop'. injection Hop' as <-. now rewrite Hv.
Qed.

Lemma clean_turn (svc : service) (base target : string) (t : trace)
    (op : operation) (v : value) :
  issued_by (poll_request base target) = Some op ->
  settle op (answer svc base target t) = Returned v ->
  clean (turn svc base target t v).
Proof.
  intros Hop Hv. unfold turn.
  apply (clean_app [EWait 2500]); [now apply clean_quiet|].
  apply (clean_app [EFetch _ _]); [now apply clean_fetch with op v|].
  now apply clean_quiet.
Qed.

Lemma polling_failure (svc : service) (base : string) (id : value) (op : operation)
    (word : string) (t : trace) (o : outcome unit) (t' : trace) :
  (forall target, issued_by (poll_request base target) = Some op) ->
  polling svc base id op word t o t' ->
  clean t ->
  settled_by_failure o t'.
Proof.
  intros Hop H.
  induction H as [t|t Hid|t target e Hid Hs|t target v e Hid Hs Hw
                  |t target v Hid Hs Hw|t target v o t' Hid Hs Hw Hrest IH];
    intros Hclean.
  - now left.
  - left. apply clean_app; [assumption|now apply clean_quiet].
  - right. exists (t ++ [EWait 2500]), (poll_request base target),
      (answer svc base target t), op, e.
    rewrite <- app_assoc. repeat split; try easy.
    apply clean_app; [assumption|now apply clean_quiet].
  - left. apply clean_app; [assumption|now apply clean_turn with op].
  - left. apply clean_app; [assumption|now apply clean_turn with op].
  - apply IH. apply clean_app; [assumption|now apply clean_turn with op].
Qed.

Lemma flow_failure (svc : service) (o : outcome value) (t : trace) :
  flow svc o t -> settled_by_failure o t.
Proof.
  assert (Hgreeted : forall u c text,
             settle CreateInvitation (svc [] invitation_request) =
               Returned (invitation u c) ->
             clean (greeted svc text)).
  { intros u c text Hinv. unfold greeted, invited.
    apply clean_app; [now apply clean_fetch with CreateInvitation (invitation u c)|].
    apply (clean_app [banner text]); now apply clean_quiet. }
  destruct 1 as [e Hinv|u c Hinv Hu|u c text t Hinv Hu Hloop|u c text e t Hinv Hu Hloop
                 |u c text t e Hinv Hu Hloop Hoffer
                 |u c text t credentialId o t' Hinv Hu Hloop Hoffer Hloop2].
  - right. exists [], invitation_request, (svc [] invitation_request),
      CreateInvitation, e. repeat split; easy || apply clean_nil.
  - left. now apply clean_fetch with CreateInvitation (invitation u c).
  - apply polling_failure in Hloop;
      [|exact connection_poll_issued|now apply Hgreeted with u c].
    destruct Hloop as [Hc|(body & rq & rp & op & e & _ & _ & _ & _ & He)];
      [now left|discriminate].
  - apply polling_failure in Hloop;
      [|exact connection_poll_issued|now apply Hgreeted with u c].
    destruct Hloop as [Hc|(body & rq & rp & op & e' & Ht & Hb & Hop & Hs & He)];
      [now left|].
    right. injection He as ->. now exists body, rq, rp, op, e'.
  - apply polling_failure in Hloop;
      [|exact connection_poll_issued|now apply Hgreeted with u c].
    destruct Hloop as [Hc|(body & rq & rp & op & e' & _ & _ & _ & _ & He)];
      [|discriminate].
    right. exists t, (offer_of c), (svc t (offer_of c)), CreateCredentialOffer, e.
    repeat split; easy.
  - apply polling_failure in Hloop;
      [|exact connection_poll_issued|now apply Hgreeted with u c].
    destruct Hloop as [Hc|(body & rq & rp & op & e' & _ & _ & _ & _ & He)];
      [|discriminate].
    apply polling_failure in Hloop2; [|exact credential_poll_issued|].
    + destruct Hloop2 as [Hc2|(body & rq & rp & op & e' & Ht & Hb & Hop & Hs & ->)];
        [now left|].
      right. now exists body, rq, rp, op, e'.
    + apply clean_app; [assumption|].
      now apply clean_fetch with CreateCredentialOffer credentialId.
Qed.

(** C8: in every run of [tests], a request that makes its service operation
    fail (the request is rejected, the response is not JSON, or a field is
    read from a missing object) is the last event of the run, and the error of
    the operation is the outcome of [tests]: nothing is caught, nothing is
    asked again. *)
Theorem failure_ends_flow
    (svc : service) (fuel : nat) (o : outcome value) (t : trace)
    (pre post : trace) (rq : request) (rp : reply) (op : operation) (e : error) :
  run (tests fuel) svc [] = (o, t) ->
  t = pre ++ EFetch rq rp :: post ->
  issued_by rq = Some op ->
  settle op rp = Thrown e ->
  o = Thrown e /\ post = [].
Proof.
  intros Hrun Heq Hop Hfail. apply tests_flow, flow_failure in Hrun.
  assert (Hin : In (EFetch rq rp) t).
  { rewrite Heq. apply in_or_app. right. now left. }
  destruct Hrun as [Hc|(body & rq' & rp' & op' & e' & Ht & Hb & Hop' & Hs & ->)].
  - exfalso. exact (Hc rq rp op e Hin Hop Hfail).
  - rewrite Ht in Heq. symmetry in Heq.
    apply split_last in Heq as [(-> & _ & E)|Hbody].
    + injection E as -> ->. rewrite Hop in Hop'. injection Hop' as <-.
      rewrite Hfail in Hs. now injection Hs as ->.
    + exfalso. exact (Hb rq rp op e Hbody Hop Hfail).
Qed.

Lemma failure_ends_flow_witness :
  (Thrown FetchFailed : outcome value) = Thrown FetchFailed /\ @nil event = [].
Proof.
  apply (failure_ends_flow (scripted dropped) 5 (Thrown FetchFailed)
           (snd (run (tests 5) (scripted dropped) []))
           [EFetch invitation_request (invitation_reply scenario);
            banner "https://wallet.example/inv/abc";
            EWait 5000;
            EWait 2500;
            EFetch (poll_request connections_url "conn-1")
              (ok (status_body (JString "pending")));
            ELog (JString "pending");
            EWait 2500]
           []
           (poll_request connections_url "conn-1") NetworkFailure
           GetConnectionStatus FetchFailed).
  - vm_compute. reflexivity.
  - vm_compute. reflexivity.
  - reflexivity.
  - reflexivity.
Defined.

(** ** The order of the steps *)

(** A loop that ended has polled a value that [==] its word. *)
Lemma polling_word (svc : service) (base : string) (id : value) (op : operation)
    (word : string) (t : trace) (o : outcome unit) (t' : trace) :
  (forall target, issued_by (poll_request base target) = Some op) ->
  polling svc base id op word t o t' ->
  o = Returned tt ->
  exists rq rp v,
    In (EFetch rq rp) t' /\
    issued_by rq = Some op /\
    settle op rp = Returned v /\
    loose_eq v word = Returned true.
Proof.
  intros Hop H.
  induction H as [t|t Hid|t target e Hid Hs|t target v e Hid Hs Hw
                  |t target v Hid Hs Hw|t target v o t' Hid Hs Hw Hrest IH];
    intros Ho; try discriminate.
  - exists (poll_request base target), (answer svc base target t), v.
    split; [|split; [|split]]; try assumption.
    + apply in_or_app. right. unfold turn. right. now left.
    + apply Hop.
  - now apply IH.
Qed.

(** The steps of a run: up to the end of the connection loop, then the offer
    and the credential loop. *)
Lemma flow_steps (svc : service) (o : outcome value) (t : trace) :
  flow svc o t ->
  exists t1 rest,
    t = t1 ++ rest /\
    (forall rq rp, In (EFetch rq rp) t1 ->
                   issued_by rq = Some CreateInvitation \/
                   issued_by rq = Some GetConnectionStatus) /\
    ((rest = [] /\ forall v, o <> Returned v) \/
     ((exists rq rp status,
          In (EFetch rq rp) t1 /\
          issued_by rq = Some GetConnectionStatus /\
          settle GetConnectionStatus rp = Returned status /\
          loose_eq status "trusted" = Returned true) /\
      exists rqo rpo s2,
        rest = EFetch rqo rpo :: s2 /\
        issued_by rqo = Some CreateCredentialOffer /\
        (forall rq rp, In (EFetch rq rp) s2 ->
                       issued_by rq = Some GetCredentialState) /\
        (s2 <> [] ->
         exists credentialId,
           settle CreateCredentialOffer rpo = Returned credentialId) /\
        (forall v, o = Returned v ->
                   exists rq rp state,
                     In (EFetch rq rp) s2 /\
                     issued_by rq = Some GetCredentialState /\
                     settle GetCredentialState rp = Returned state /\
                     loose_eq state "done" = Returned true))).
Proof.
  assert (Hfirst : forall text s (base := connections_url) id,
             (forall rq rp, In (EFetch rq rp) s ->
                            exists target, ToString id = Some target /\
                                           rq = poll_request base target) ->
             forall rq rp, In (EFetch rq rp) (greeted svc text ++ s) ->
                           issued_by rq = Some CreateInvitation \/
                           issued_by rq = Some GetConnectionStatus).
  { intros text s base id Hs rq rp Hin. apply in_app_or in Hin as [Hin|Hin].
    - left. destruct Hin as [H|[H|[H|[]]]]; try discriminate.
      now injection H as <- _.
    - right. apply Hs in Hin as (target & _ & ->). apply connection_poll_issued. }
  destruct 1 as [e Hinv|u c Hinv Hu|u c text t Hinv Hu Hloop|u c text e t Hinv Hu Hloop
                 |u c text t e Hinv Hu Hloop Hoffer
                 |u c text t credentialId o t' Hinv Hu Hloop Hoffer Hloop2].
  - exists (invited svc), []. rewrite app_nil_r. split; [reflexivity|]. split.
    + intros rq rp [H|[]]. left. now injection H as <- _.
    + left. split; [reflexivity|discriminate].
  - exists (invited svc), []. rewrite app_nil_r. split; [reflexivity|]. split.
    + intros rq rp [H|[]]. left. now injection H as <- _.
    + left. split; [reflexivity|discriminate].
  - destruct (polling_tail _ _ _ _ _ _ _ _ Hloop) as (s & -> & _ & _ & _ & Hs).
    exists (greeted svc text ++ s), []. rewrite app_nil_r. split; [reflexivity|].
    split; [now apply Hfirst with c|]. left. split; [reflexivity|discriminate].
  - destruct (polling_tail _ _ _ _ _ _ _ _ Hloop) as (s & -> & _ & _ & _ & Hs).
    exists (greeted svc text ++ s), []. rewrite app_nil_r. split; [reflexivity|].
    split; [now apply Hfirst with c|]. left. split; [reflexivity|discriminate].
  - destruct (polling_tail _ _ _ _ _ _ _ _ Hloop) as (s & -> & _ & _ & _ & Hs).
    exists (greeted svc text ++ s),
      [EFetch (offer_of c) (svc (greeted svc text ++ s) (offer_of c))].
    split; [reflexivity|]. split; [now apply Hfirst with c|]. right. split.
    + apply (polling_word _ _ _ _ _ _ _ _ connection_poll_issued Hloop eq_refl).
    + eexists _, _, []. split; [reflexivity|]. split; [reflexivity|].
      split; [intros rq rp []|]. split; [intros H; now elim H|discriminate].
  - destruct (polling_tail _ _ _ _ _ _ _ _ Hloop) as (s & -> & _ & _ & _ & Hs).
    destruct (polling_tail _ _ _ _ _ _ _ _ Hloop2) as (s2 & -> & _ & _ & _ & Hs2).
    exists (greeted svc text ++ s),
      (EFetch (offer_of c) (svc (greeted svc text ++ s) (offer_of c)) :: s2).
    split; [unfold offered; now rewrite <- app_assoc|].
    split; [now apply Hfirst with c|]. right. split.
    + apply (polling_word _ _ _ _ _ _ _ _ connection_poll_issued Hloop eq_refl).
    + eexists _, _, s2. split; [reflexivity|]. split; [reflexivity|].
      split; [|split].
      * intros rq rp Hin. apply Hs2 in Hin as (target & _ & ->).
        apply credential_poll_issued.
      * intros _. now exists credentialId.
      * intros v Hv. destruct o as [[]| |]; try discriminate.
        destruct (polling_word _ _ _ _ _ _ _ _ credential_poll_issued Hloop2 eq_refl)
          as (rq & rp & state & Hin & Hop & Hstate & Hdone).
        exists rq, rp, state. split; [|now repeat split].
        apply in_app_or in Hin as [Hin|Hin]; [|assumption].
        exfalso. unfold offered in Hin.
        apply in_app_or in Hin as [Hin|[Hin|[]]].
        -- apply (Hfirst text s c Hs) in Hin as [Hin|Hin]; congruence.
        -- injection Hin as <- _. discriminate.
Qed.

(** C4, as the code has it: in every run of [tests] the credential offer is
    requested only after a connection-status poll has returned a status that
    [==] ['trusted'], that is the string ['trusted'] or an array or object
    whose text is ['trusted']; a credential-state poll is made only after the
    offer has returned; and the flow completes only after a credential-state
    poll has returned a state that [==] ['done'] in the same way. *)
Theorem steps_in_order
    (svc : service) (fuel : nat) (o : outcome value) (t : trace) :
  run (tests fuel) svc [] = (o, t) ->
  (forall pre rq rp post,
      t = pre ++ EFetch rq rp :: post ->
      issued_by rq = Some CreateCredentialOffer ->
      exists rq' rp' status,
        In (EFetch rq' rp') pre /\
        issued_by rq' = Some GetConnectionStatus /\
        settle GetConnectionStatus rp' = Returned status /\
        (status = JString "trusted" \/
         (primitive status = false /\ ToString status = Some "trusted"))) /\
  (forall pre rq rp post,
      t = pre ++ EFetch rq rp :: post ->
      issued_by rq = Some GetCredentialState ->
      exists rq' rp' credentialId,
        In (EFetch rq' rp') pre /\
        issued_by rq' = Some CreateCredentialOffer /\
        settle CreateCredentialOffer rp' = Returned credentialId) /\
  (forall v,
      o = Returned v ->
      exists rq rp state,
        In (EFetch rq rp) t /\
        issued_by rq = Some GetCredentialState /\
        settle GetCredentialState rp = Returned state /\
        (state = JString "done" \/
         (primitive state = false /\ ToString state = Some "done"))).
Proof.
  intros Hrun. apply tests_flow in Hrun.
  destruct (flow_steps svc o t Hrun) as (t1 & rest & -> & Ht1 & Hrest).
  assert (Hbeyond : forall pre rq rp post op,
             t1 ++ rest = pre ++ EFetch rq rp :: post ->
             issued_by rq = Some op ->
             op = CreateCredentialOffer \/ op = GetCredentialState ->
             exists mid, pre = t1 ++ mid /\ rest = mid ++ EFetch rq rp :: post).
  { intros pre rq rp post op Heq Hop Hkind. apply split_beyond in Heq; [assumption|].
    intros Hin. apply Ht1 in Hin. rewrite Hop in Hin.
    destruct Hkind as [-> | ->], Hin; discriminate. }
  split; [|split].
  - intros pre rq rp post Heq Hop.
    destruct (Hbeyond _ _ _ _ _ Heq Hop (or_introl eq_refl)) as (mid & -> & Hmid).
    destruct Hrest as [[-> _]|[(rq' & rp' & status & Hin & Hop' & Hs & Htrusted) _]].
    + now destruct mid.
    + exists rq', rp', status. split; [apply in_or_app; now left|].
      split; [exact Hop'|]. split; [exact Hs|]. now apply loose_eq_true.
  - intros pre rq rp post Heq Hop.
    destruct (Hbeyond _ _ _ _ _ Heq Hop (or_intror eq_refl)) as (mid & -> & Hmid).
    destruct Hrest as [[-> _]|[_ (rqo & rpo & s2 & -> & Hoffer & Hs2 & Hcred & _)]].
    + now destruct mid.
    + destruct mid as [|m mid].
      * cbn in Hmid. injection Hmid as -> _ _. congruence.
      * cbn in Hmid. injection Hmid as <- ->.
        destruct Hcred as [credentialId Hcred]; [now destruct mid|].
        exists rqo, rpo, credentialId. split; [|now split].
        apply in_or_app. right. now left.
  - intros v Hv.
    destruct Hrest as [[_ Hno]|[_ (rqo & rpo & s2 & -> & _ & _ & _ & Hdone)]].
    + now apply Hno in Hv.
    + destruct (Hdone v Hv) as (rq & rp & state & Hin & Hop & Hs & Hw).
      exists rq, rp, state. split; [apply in_or_app; right; now right|].
      split; [exact Hop|]. split; [exact Hs|]. now apply loose_eq_true.
Qed.

Lemma steps_in_order_witness :
  (forall pre rq rp post,
      scenario_trace = pre ++ EFetch rq rp :: post ->
      issued_by rq = Some CreateCredentialOffer ->
      exists rq' rp' status,
        In (EFetch rq' rp') pre /\
        issued_by rq' = Some GetConnectionStatus /\
        settle GetConnectionStatus rp' = Returned status /\
        (status = JString "trusted" \/
         (primitive status = false /\ ToString status = Some "trusted"))) /\
  (forall pre rq rp post,
      scenario_trace = pre ++ EFetch rq rp :: post ->
      issued_by rq = Some GetCredentialState ->
      exists rq' rp' credentialId,
        In (EFetch rq' rp') pre /\
        issued_by rq' = Some CreateCredentialOffer /\
        settle CreateCredentialOffer rp' = Returned credentialId) /\
  (forall v,
      Returned JUndefined = Returned v ->
      exists rq rp state,
        In (EFetch rq rp) scenario_trace /\
        issued_by rq = Some GetCredentialState /\
        settle GetCredentialState rp = Returned state /\
        (state = JString "done" \/
         (primitive state = false /\ ToString state = Some "done"))).
Proof.
  apply (steps_in_order (scripted scenario) 3 (Returned JUndefined) scenario_trace).
  vm_compute. reflexivity.
Defined.

(** C4 as stated fails: when the service reports the connection status as
    the array [["trusted"]], the loop ends, since [["trusted"] == 'trusted'],
    and the offer is requested although no poll has returned the string
    ['trusted']. *)
Lemma offer_after_array_status :
  exists o pre rq rp post,
    run (tests 1) (scripted arrayed) [] = (o, pre ++ EFetch rq rp :: post) /\
    issued_by rq = Some CreateCredentialOffer /\
    ~ (exists rq' rp',
          In (EFetch rq' rp') pre /\
          issued_by rq' = Some GetConnectionStatus /\
          settle GetConnectionStatus rp' = Returned (JString "trusted")).
Proof.
  exists Pending,
    [EFetch invitation_request (invitation_reply scenario);
     banner "https://wallet.example/inv/abc";
     EWait 5000;
     EWait 2500;
     EFetch (poll_request connections_url "conn-1")
       (ok (status_body (JArray [JString "trusted"])));
     ELog (JArray [JString "trusted"])],
    (offer_request offer_url
       (offer_body (JString "conn-1") attributes
          (JString default_credentialDefinitionId))),
    (offer_reply scenario),
    [EWait 2500;
     EFetch (poll_request credential_url "cred-1")
       (ok (state_body (JString "offer-sent")));
     ELog (JString "offer-sent")].
  split; [vm_compute; reflexivity|]. split; [reflexivity|].
  intros (rq' & rp' & Hin & Hop & Hs).
  destruct Hin as [H|[H|[H|[H|[H|[H|[]]]]]]]; try discriminate H;
    injection H as <- <-; discriminate.
Qed.

(** * Further properties *)

(** ** The transport helpers *)

(** X1: a transport helper makes exactly one request.  It throws when the
    request is rejected or the answer is not JSON, and otherwise returns the
    parsed body whatever the HTTP status of the response: the status is never
    looked at. *)
Theorem transport_outcome
    (target : string) (data : value) (svc : service) (t : trace) :
  let get_rq := mkRequest GET target [] None in
  let post_rq := mkRequest POST target [("Content-Type", "application/json")]
                   (jsonify (default_to (JObject []) data)) in
  let got := run (getRequest (JString target)) svc t in
  let posted := run (postRequest (JString target) data) svc t in
  snd got = t ++ [EFetch get_rq (svc t get_rq)] /\
  snd posted = t ++ [EFetch post_rq (svc t post_rq)] /\
  (svc t get_rq = NetworkFailure -> fst got = Thrown FetchFailed) /\
  (svc t post_rq = NetworkFailure -> fst posted = Thrown FetchFailed) /\
  (forall status,
      svc t get_rq = Response status None -> fst got = Thrown InvalidJSON) /\
  (forall status,
      svc t post_rq = Response status None -> fst posted = Thrown InvalidJSON) /\
  (forall status body,
      svc t get_rq = Response status (Some body) -> fst got = Returned body) /\
  (forall status body,
      svc t post_rq = Response status (Some body) -> fst posted = Returned body).
Proof.
  cbv zeta. rewrite getRequest_run, postRequest_run. cbv zeta.
  unfold offer_request, json_header. cbn [fst snd].
  split; [reflexivity|]. split; [reflexivity|].
  split; [now intros ->|]. split; [now intros ->|].
  split; [now intros status ->|]. split; [now intros status ->|].
  split; now intros status body ->.
Qed.

Lemma transport_outcome_witness :
  fst (run (getRequest (JString "http://ocm/v1/connections/conn-1"))
         (fun _ _ => Response 500 (Some (JObject [("error", JString "down")]))) []) =
  Returned (JObject [("error", JString "down")]).
Proof.
  refine (proj1 (proj2 (proj2 (proj2 (proj2 (proj2 (proj2
            (transport_outcome "http://ocm/v1/connections/conn-1" JUndefined
               (fun _ _ => Response 500 (Some (JObject [("error", JString "down")])))
               []))))))) 500 _ eq_refl).
Defined.



Lemma requests_app (a b : trace) : requests (a ++ b) = requests a ++ requests b.
Proof.
  induction a as [|[rq rp|ms|v] a IH]; cbn; now rewrite ?IH.
Qed.



(** ** Reading the response *)

Lemma get_field (v : value) (k : string) :
  get v k = if nullish v then Thrown NullishRead else Returned (field v k).
Proof. now destruct v. Qed.

(** X3: on a JSON response [createInvitation] fails exactly when the response,
    its [data] or its [data.connection] is [undefined] or [null]; otherwise it
    returns the record of [data.invitationUrl] and [data.connection.id], each
    of which is [undefined] when the response does not have it. *)
Theorem createInvitation_outcome
    (url : value) (endpoint : string) (svc : service) (t : trace)
    (status : nat) (response : value) :
  let rq := mkRequest POST endpoint [("Content-Type", "application/json")]
              (Some (JObject [])) in
  default_to (JString invitation_url) url = JString endpoint ->
  svc t rq = Response status (Some response) ->
  run (createInvitation url) svc t =
  (if nullish response || nullish (field response "data")
      || nullish (field (field response "data") "connection")
   then Thrown NullishRead
   else Returned
          (JObject [("invitationUrl", field (field response "data") "invitationUrl");
                    ("connectionId",
                     field (field (field response "data") "connection") "id")]),
   t ++ [EFetch rq (svc t rq)]).
Proof.
  cbv zeta. intros Hurl Hrp.
  assert (E : run (createInvitation url) svc t =
              run (createInvitation (JString endpoint)) svc t).
  { unfold createInvitation. now rewrite Hurl. }
  rewrite E, createInvitation_run. cbv zeta. unfold json_header.
  rewrite Hrp. unfold settle. cbn [json bindO extract]. f_equal.
  rewrite !get_field.
  destruct (nullish response); [reflexivity|]. cbn [bindO orb]. rewrite !get_field.
  destruct (nullish (field response "data")); [reflexivity|]. cbn [bindO orb].
  rewrite !get_field.
  now destruct (nullish (field (field response "data") "connection")).
Qed.

Lemma createInvitation_outcome_witness :
  run (createInvitation JUndefined)
    (fun _ _ => ok (JObject [("data", JObject [("connection", JObject [])])])) [] =
  (Returned (JObject [("invitationUrl", JUndefined); ("connectionId", JUndefined)]),
   [EFetch invitation_request
      (ok (JObject [("data", JObject [("connection", JObject [])])]))]).
Proof.
  apply (createInvitation_outcome JUndefined invitation_url
           (fun _ _ => ok (JObject [("data", JObject [("connection", JObject [])])]))
           [] 200 (JObject [("data", JObject [("connection", JObject [])])]));
    reflexivity.
Defined.

Lemma getConnectionStatus_at (c url : value) (endpoint : string)
    (svc : service) (t : trace) :
  default_to (JString connections_url) url = JString endpoint ->
  run (getConnectionStatus c url) svc t =
  match ToString c with
  | Some target =>
      let rq := poll_request endpoint target in
      (settle GetConnectionStatus (svc t rq), t ++ [EFetch rq (svc t rq)])
  | None => (Thrown NotPrimitive, t)
  end.
Proof.
  intros Hurl. unfold getConnectionStatus. cbv zeta. rewrite Hurl.
  rewrite run_bind. unfold template2, to_string. cbn [ToString].
  destruct (ToString c) as [target|]; [|reflexivity].
  rewrite run_lift. cbv iota beta.
  rewrite run_bind, getRequest_run. fold (poll_request endpoint target).
  unfold settle.
  destruct (json (svc t _)) as [r| |]; cbn; try reflexivity.
  unfold run, bindM, lift. cbn.
  destruct (get r "data") as [d| |]; cbn; try reflexivity.
  destruct (get d "records") as [x| |]; cbn; reflexivity.
Qed.

Lemma getCredentialState_at (c url : value) (endpoint : string)
    (svc : service) (t : trace) :
  default_to (JString credential_url) url = JString endpoint ->
  run (getCredentialState c url) svc t =
  match ToString c with
  | Some target =>
      let rq := poll_request endpoint target in
      (settle GetCredentialState (svc t rq), t ++ [EFetch rq (svc t rq)])
  | None => (Thrown NotPrimitive, t)
  end.
Proof.
  intros Hurl. unfold getCredentialState. cbv zeta. rewrite Hurl.
  rewrite run_bind. unfold template2, to_string. cbn [ToString].
  destruct (ToString c) as [target|]; [|reflexivity].
  rewrite run_lift. cbv iota beta.
  rewrite run_bind, getRequest_run. fold (poll_request endpoint target).
  unfold settle.
  destruct (json (svc t _)) as [r| |]; cbn; try reflexivity.
  unfold run, bindM, lift. cbn.
  destruct (get r "data") as [d| |]; cbn; reflexivity.
Qed.

(** X4: [getConnectionStatus] makes one GET to the endpoint followed by the
    text of the identifier.  On a JSON response it fails exactly when the
    response, its [data] or its [data.records] is [undefined] or [null], and
    otherwise returns [data.records.status], [undefined] when there is none. *)
Theorem getConnectionStatus_outcome
    (connectionId url : value) (endpoint target : string) (svc : service)
    (t : trace) (status : nat) (response : value) :
  let rq := mkRequest GET (endpoint ++ target)%string [] None in
  default_to (JString connections_url) url = JString endpoint ->
  ToString connectionId = Some target ->
  svc t rq = Response status (Some response) ->
  run (getConnectionStatus connectionId url) svc t =
  (if nullish response || nullish (field response "data")
      || nullish (field (field response "data") "records")
   then Thrown NullishRead
   else Returned (field (field (field response "data") "records") "status"),
   t ++ [EFetch rq (svc t rq)]).
Proof.
  cbv zeta. intros Hurl Hid Hrp.
  rewrite (getConnectionStatus_at _ _ endpoint _ _ Hurl), Hid. cbv zeta.
  unfold poll_request. rewrite Hrp. unfold settle. cbn [json bindO extract]. f_equal.
  rewrite !get_field.
  destruct (nullish response); [reflexivity|]. cbn [bindO orb]. rewrite !get_field.
  destruct (nullish (field response "data")); [reflexivity|]. cbn [bindO orb].
  rewrite !get_field.
  now destruct (nullish (field (field response "data") "records")).
Qed.

Lemma getConnectionStatus_outcome_witness :
  run (getConnectionStatus JUndefined (JString "http://ocm/v1/connections/"))
    (fun _ _ => ok (JObject [("data", JObject [("records", JObject [])])])) [] =
  (Returned JUndefined,
   [EFetch (mkRequest GET "http://ocm/v1/connections/undefined" [] None)
      (ok (JObject [("data", JObject [("records", JObject [])])]))]).
Proof.
  apply (getConnectionStatus_outcome JUndefined (JString "http://ocm/v1/connections/")
           "http://ocm/v1/connections/" "undefined"
           (fun _ _ => ok (JObject [("data", JObject [("records", JObject [])])]))
           [] 200 (JObject [("data", JObject [("records", JObject [])])]));
    reflexivity.
Defined.

(** X5: [getCredentialState] makes one GET to the endpoint followed by the
    text of the identifier.  On a JSON response it fails exactly when the
    response or its [data] is [undefined] or [null], and otherwise returns
    [data.state], [undefined] when there is none. *)
Theorem getCredentialState_outcome
    (credentialId url : value) (endpoint target : string) (svc : service)
    (t : trace) (status : nat) (response : value) :
  let rq := mkRequest GET (endpoint ++ target)%string [] None in
  default_to (JString credential_url) url = JString endpoint ->
  ToString credentialId = Some target ->
  svc t rq = Response status (Some response) ->
  run (getCredentialState credentialId url) svc t =
  (if nullish response || nullish (field response "data")
   then Thrown NullishRead
   else Returned (field (field response "data") "state"),
   t ++ [EFetch rq (svc t rq)]).
Proof.
  cbv zeta. intros Hurl Hid Hrp.
  rewrite (getCredentialState_at _ _ endpoint _ _ Hurl), Hid. cbv zeta.
  unfold poll_request. rewrite Hrp. unfold settle. cbn [json bindO extract]. f_equal.
  rewrite !get_field.
  destruct (nullish response); [reflexivity|]. cbn [bindO orb]. rewrite !get_field.
  now destruct (nullish (field response "data")).
Qed.

Lemma getCredentialState_outcome_witness :
  run (getCredentialState (JString "cred-1") JUndefined)
    (fun _ _ => ok (JObject [("data", JNull)])) [] =
  (Thrown NullishRead,
   [EFetch (poll_request credential_url "cred-1") (ok (JObject [("data", JNull)]))]).
Proof.
  apply (getCredentialState_outcome (JString "cred-1") JUndefined credential_url
           "cred-1" (fun _ _ => ok (JObject [("data", JNull)])) [] 200
           (JObject [("data", JNull)]));
    reflexivity.
Defined.

(** X6: an identifier that has no text (an object with a [toString] property
    of its own, which after [JSON.parse] is not a function) makes either poll
    throw before any request is made. *)
Theorem poll_without_text (id url : value) (svc : service) (t : trace) :
  ToString id = None ->
  run (getConnectionStatus id url) svc t = (Thrown NotPrimitive, t) /\
  run (getCredentialState id url) svc t = (Thrown NotPrimitive, t).
Proof.
  intros Hid. unfold getConnectionStatus, getCredentialState. cbv zeta.
  rewrite !run_bind, !run_lift. unfold template2, to_string. rewrite Hid.
  split.
  - now destruct (ToString (default_to (JString connections_url) url)).
  - now destruct (ToString (default_to (JString credential_url) url)).
Qed.

Lemma poll_without_text_witness :
  run (getConnectionStatus (JObject [("toString", JNumber "1")]) JUndefined)
    (scripted scenario) [] = (Thrown NotPrimitive, []) /\
  run (getCredentialState (JObject [("toString", JNumber "1")]) JUndefined)
    (scripted scenario) [] = (Thrown NotPrimitive, []).
Proof.
  apply (poll_without_text (JObject [("toString", JNumber "1")]) JUndefined
           (scripted scenario) []).
  reflexivity.
Defined.

(** X7: when [createCredentialOffer] is given no connection identifier
    ([undefined], which is what [createInvitation] returns for a response
    without [data.connection.id]), the body it sends has no [connectionId]
    at all; the other four fields are sent as usual. *)
Theorem createCredentialOffer_without_connection
    (attrs : list (string * string)) (credentialDefinitionId endpoint : string)
    (svc : service) (t : trace) :
  let sent := JArray (map (fun a => attribute (fst a) (snd a)) attrs) in
  requests (snd (run (createCredentialOffer JUndefined sent
                        (JString credentialDefinitionId) (JString endpoint)) svc t)) =
  requests t ++
  [mkRequest POST endpoint [("Content-Type", "application/json")]
     (Some (JObject [("credentialDefinitionId", JString credentialDefinitionId);
                     ("comment", JString "");
                     ("attributes", sent);
                     ("autoAcceptCredential", JString "always")]))].
Proof.
  cbv zeta. rewrite createCredentialOffer_run. cbv zeta. cbn [snd default_to].
  rewrite requests_app. unfold offer_request, offer_body, json_header.
  set (sent := JArray _).
  assert (Hsent : jsonify sent = Some sent) by apply jsonify_attributes.
  cbn [jsonify]. now rewrite Hsent.
Qed.

(** X14: on a JSON response [createCredentialOffer] fails exactly when the
    response or its [data] is [undefined] or [null]; otherwise it returns
    [data.id], [undefined] when there is none. *)
Theorem createCredentialOffer_outcome
    (connectionId attrs credentialDefinitionId : value) (endpoint : string)
    (svc : service) (t : trace) (status : nat) (response : value) :
  let rq := offer_request endpoint
              (offer_body connectionId attrs
                 (default_to (JString default_credentialDefinitionId)
                    credentialDefinitionId)) in
  svc t rq = Response status (Some response) ->
  run (createCredentialOffer connectionId attrs credentialDefinitionId
         (JString endpoint)) svc t =
  (if nullish response || nullish (field response "data")
   then Thrown NullishRead
   else Returned (field (field response "data") "id"),
   t ++ [EFetch rq (svc t rq)]).
Proof.
  cbv zeta. intros Hrp. rewrite createCredentialOffer_run. cbv zeta.
  rewrite Hrp. unfold settle. cbn [json bindO extract]. f_equal.
  rewrite !get_field.
  destruct (nullish response); [reflexivity|]. cbn [bindO orb]. rewrite !get_field.
  now destruct (nullish (field response "data")).
Qed.

Lemma createCredentialOffer_outcome_witness :
  run (createCredentialOffer (JString "conn-1") attributes JUndefined
         (JString offer_url))
    (fun _ _ => ok (JObject [("data", JNull)])) [] =
  (Thrown NullishRead,
   [EFetch (offer_request offer_url
              (offer_body (JString "conn-1") attributes
                 (JString default_credentialDefinitionId)))
      (ok (JObject [("data", JNull)]))]).
Proof.
  apply (createCredentialOffer_outcome (JString "conn-1") attributes JUndefined
           offer_url (fun _ _ => ok (JObject [("data", JNull)])) [] 200
           (JObject [("data", JNull)])).
  reflexivity.
Defined.

(** ** When the loops go on and when they stop *)

Lemma loose_eq_other (v : value) (w : string) :
  primitive v = true -> v <> JString w -> loose_eq v w = Returned false.
Proof.
  destruct v; cbn; intros Hp Hv; try reflexivity; try discriminate.
  destruct (String.eqb_spec s w) as [->|_]; [now elim Hv|reflexivity].
Qed.

(** X8: the connection loop goes on as long as the status it reads is a
    number, a boolean, [null], a string other than ['trusted'], or
    [undefined], which is what a response without [status] gives: however
    many turns it is allowed, it is still pending after them, with one delay
    and one poll made per turn. *)
Theorem connection_wait_other_status
    (svc : service) (invitationUrl c : value) (target : string) (t : trace) :
  ToString c = Some target ->
  (forall t', exists v,
      settle GetConnectionStatus (svc t' (poll_request connections_url target)) =
        Returned v /\
      primitive v = true /\ v <> JString "trusted") ->
  forall fuel,
    exists tail,
      run (connection_wait fuel (invitation invitationUrl c)) svc t =
        (Pending, t ++ tail) /\
      polls tail = fuel /\ delays tail = fuel.
Proof.
  intros Hc Hother fuel. rewrite connection_wait_run.
  destruct (polling_forever svc connections_url c GetConnectionStatus "trusted"
              target Hc) with (fuel := fuel) (t := t) as (tail & Hrun & Hpolls & Hb).
  - intros t'. destruct (Hother (t' ++ [EWait 2500])) as (v & Hs & Hp & Hv).
    exists v. split; [exact Hs|now apply loose_eq_other].
  - exists tail. split; [exact Hrun|]. split; [exact Hpolls|].
    now rewrite (beats_counts (poll_request connections_url target) tail eq_refl Hb).
Qed.

Lemma connection_wait_other_status_witness :
  exists tail,
    run (connection_wait 4 (invitation JUndefined (JString "conn-1")))
      (fun _ _ => ok (JObject [("data", JObject [("records", JObject [])])])) [] =
      (Pending, [] ++ tail) /\
    polls tail = 4 /\ delays tail = 4.
Proof.
  refine (connection_wait_other_status
            (fun _ _ => ok (JObject [("data", JObject [("records", JObject [])])]))
            JUndefined (JString "conn-1") "conn-1" [] eq_refl _ 4).
  intros t'. exists JUndefined. repeat split. discriminate.
Defined.

(** What a loop that has ended has seen. *)
Lemma polling_seen (svc : service) (base : string) (id : value) (op : operation)
    (word : string) (t : trace) (o : outcome unit) (t' : trace) :
  polling svc base id op word t o t' ->
  o = Returned tt ->
  exists seen final tail,
    t' = t ++ tail /\
    observed tail = seen ++ [final] /\
    polls tail = length (seen ++ [final]) /\
    Forall (fun v => loose_eq v word = Returned false) seen /\
    loose_eq final word = Returned true.
Proof.
  induction 1 as [t|t Hid|t target e Hid Hs|t target v e Hid Hs Hw
                  |t target v Hid Hs Hw|t target v o t' Hid Hs Hw Hrest IH];
    intros Ho; try discriminate.
  - exists [], v, (turn svc base target t v). repeat split; try assumption.
    constructor.
  - destruct (IH Ho) as (seen & final & tail & -> & Hobs & Hpolls & Hseen & Hfinal).
    exists (v :: seen), final, (turn svc base target t v ++ tail).
    rewrite <- app_assoc, observed_app, polls_app, Hobs, Hpolls.
    repeat split; try assumption. now constructor.
Qed.

(** X9: a loop ends only on a value that [==] its word: when the connection
    loop (the credential loop) returns, it has logged one value per poll, all
    but the last not [==] to ['trusted'] (['done']), and the last one either
    that very string or an array or object whose text is that string. *)
Theorem loops_end_on_word (svc : service) (fuel : nat) :
  (forall invitationUrl connectionId t t',
      run (connection_wait fuel (invitation invitationUrl connectionId)) svc t =
        (Returned tt, t') ->
      exists seen final tail,
        t' = t ++ tail /\
        observed tail = seen ++ [final] /\
        polls tail = length (seen ++ [final]) /\
        Forall (fun v => loose_eq v "trusted" = Returned false) seen /\
        (final = JString "trusted" \/
         (primitive final = false /\ ToString final = Some "trusted"))) /\
  (forall credentialId t t',
      run (credential_wait fuel credentialId) svc t = (Returned tt, t') ->
      exists seen final tail,
        t' = t ++ tail /\
        observed tail = seen ++ [final] /\
        polls tail = length (seen ++ [final]) /\
        Forall (fun v => loose_eq v "done" = Returned false) seen /\
        (final = JString "done" \/
         (primitive final = false /\ ToString final = Some "done"))).
Proof.
  split.
  - intros u c t t' Hrun. rewrite connection_wait_run in Hrun.
    apply polling_run in Hrun.
    destruct (polling_seen _ _ _ _ _ _ _ _ Hrun eq_refl)
      as (seen & final & tail & Ht & Hobs & Hpolls & Hseen & Hfinal).
    exists seen, final, tail. repeat split; try assumption.
    now apply loose_eq_true.
  - intros c t t' Hrun. rewrite credential_wait_run in Hrun.
    apply polling_run in Hrun.
    destruct (polling_seen _ _ _ _ _ _ _ _ Hrun eq_refl)
      as (seen & final & tail & Ht & Hobs & Hpolls & Hseen & Hfinal).
    exists seen, final, tail. repeat split; try assumption.
    now apply loose_eq_true.
Qed.

Lemma loops_end_on_word_witness :
  exists seen final tail,
    snd (run (connection_wait 3 (invitation (JString "https://wallet.example/inv/abc")
                                   (JString "conn-1")))
           (scripted scenario) []) = [] ++ tail /\
    observed tail = seen ++ [final] /\
    polls tail = length (seen ++ [final]) /\
    Forall (fun v => loose_eq v "trusted" = Returned false) seen /\
    (final = JString "trusted" \/
     (primitive final = false /\ ToString final = Some "trusted")).
Proof.
  apply (proj1 (loops_end_on_word (scripted scenario) 3)
           (JString "https://wallet.example/inv/abc") (JString "conn-1") []).
  vm_compute. reflexivity.
Defined.

(** ** The requests of the flow *)

(** X10: what [tests] requests.  Every request of a run is the invitation
    request, or a GET on the connections endpoint followed by the text of the
    connection identifier that [createInvitation] returned, or the offer for
    that same identifier with the four attributes and the default credential
    definition, or a GET on the credential endpoint followed by the text of
    the identifier that this offer returned. *)
Theorem requests_thread_identifiers
    (svc : service) (fuel : nat) (o : outcome value) (t : trace)
    (rq : request) (rp : reply) :
  run (tests fuel) svc [] = (o, t) ->
  In (EFetch rq rp) t ->
  rq = mkRequest POST invitation_url [("Content-Type", "application/json")]
         (Some (JObject [])) \/
  exists invitationUrl connectionId,
    settle CreateInvitation (svc [] invitation_request) =
      Returned (JObject [("invitationUrl", invitationUrl);
                         ("connectionId", connectionId)]) /\
    ((exists text,
         ToString connectionId = Some text /\
         rq = mkRequest GET (connections_url ++ text)%string [] None) \/
     rq = mkRequest POST offer_url [("Content-Type", "application/json")]
            (jsonify (JObject [("connectionId", connectionId);
                               ("credentialDefinitionId",
                                JString default_credentialDefinitionId);
                               ("comment", JString "");
                               ("attributes", attributes);
                               ("autoAcceptCredential", JString "always")])) \/
     (exists offer answered credentialId text,
         In (EFetch offer answered) t /\
         issued_by offer = Some CreateCredentialOffer /\
         settle CreateCredentialOffer answered = Returned credentialId /\
         ToString credentialId = Some text /\
         rq = mkRequest GET (credential_url ++ text)%string [] None)).
Proof.
  intros Hrun Hin. apply tests_flow in Hrun.
  assert (Hinvited : In (EFetch rq rp) (invited svc) -> rq = invitation_request).
  { intros [H|[]]. now injection H as <- _. }
  assert (Hgreeted : forall text, In (EFetch rq rp) (greeted svc text) ->
                                  rq = invitation_request).
  { intros text H. apply in_app_or in H as [H|[H|[H|[]]]]; try discriminate.
    now apply Hinvited. }
  destruct Hrun as [e Hinv|u c Hinv Hu|u c text t Hinv Hu Hloop|u c text e t Hinv Hu Hloop
                    |u c text t e Hinv Hu Hloop Hoffer
                    |u c text t credentialId o t' Hinv Hu Hloop Hoffer Hloop2];
    try (left; now apply Hinvited).
  - destruct (polling_tail _ _ _ _ _ _ _ _ Hloop) as (s & -> & _ & _ & _ & Hs).
    apply in_app_or in Hin as [Hin|Hin]; [left; now apply Hgreeted in Hin|].
    right. exists u, c. split; [exact Hinv|]. left.
    apply Hs in Hin as (target & Ht & ->). now exists target.
  - destruct (polling_tail _ _ _ _ _ _ _ _ Hloop) as (s & -> & _ & _ & _ & Hs).
    apply in_app_or in Hin as [Hin|Hin]; [left; now apply Hgreeted in Hin|].
    right. exists u, c. split; [exact Hinv|]. left.
    apply Hs in Hin as (target & Ht & ->). now exists target.
  - destruct (polling_tail _ _ _ _ _ _ _ _ Hloop) as (s & -> & _ & _ & _ & Hs).
    apply in_app_or in Hin as [Hin|[Hin|[]]].
    + apply in_app_or in Hin as [Hin|Hin]; [left; now apply Hgreeted in Hin|].
      right. exists u, c. split; [exact Hinv|]. left.
      apply Hs in Hin as (target & Ht & ->). now exists target.
    + right. exists u, c. split; [exact Hinv|]. right. left.
      now injection Hin as <- _.
  - destruct (polling_tail _ _ _ _ _ _ _ _ Hloop) as (s & -> & _ & _ & _ & Hs).
    destruct (polling_tail _ _ _ _ _ _ _ _ Hloop2) as (s2 & -> & _ & _ & _ & Hs2).
    apply in_app_or in Hin as [Hin|Hin].
    + apply in_app_or in Hin as [Hin|[Hin|[]]].
      * apply in_app_or in Hin as [Hin|Hin]; [left; now apply Hgreeted in Hin|].
        right. exists u, c. split; [exact Hinv|]. left.
        apply Hs in Hin as (target & Ht & ->). now exists target.
      * right. exists u, c. split; [exact Hinv|]. right. left.
        now injection Hin as <- _.
    + right. exists u, c. split; [exact Hinv|]. right. right.
      apply Hs2 in Hin as (target & Ht & ->).
      exists (offer_of c), (svc (greeted svc text ++ s) (offer_of c)),
        credentialId, target.
      split; [|now repeat split].
      apply in_or_app. left. apply in_or_app. right. now left.
Qed.

Lemma requests_thread_identifiers_witness :
  poll_request credential_url "cred-1" =
    mkRequest POST invitation_url [("Content-Type", "application/json")]
      (Some (JObject [])) \/
  exists invitationUrl connectionId,
    settle CreateInvitation (scripted scenario [] invitation_request) =
      Returned (JObject [("invitationUrl", invitationUrl);
                         ("connectionId", connectionId)]) /\
    ((exists text,
         ToString connectionId = Some text /\
         poll_request credential_url "cred-1" =
           mkRequest GET (connections_url ++ text)%string [] None) \/
     poll_request credential_url "cred-1" =
       mkRequest POST offer_url [("Content-Type", "application/json")]
         (jsonify (JObject [("connectionId", connectionId);
                            ("credentialDefinitionId",
                             JString default_credentialDefinitionId);
                            ("comment", JString "");
                            ("attributes", attributes);
                            ("autoAcceptCredential", JString "always")])) \/
     (exists offer answered credentialId text,
         In (EFetch offer answered) scenario_trace /\
         issued_by offer = Some CreateCredentialOffer /\
         settle CreateCredentialOffer answered = Returned credentialId /\
         ToString credentialId = Some text /\
         poll_request credential_url "cred-1" =
           mkRequest GET (credential_url ++ text)%string [] None)).
Proof.
  apply (requests_thread_identifiers (scripted scenario) 3 (Returned JUndefined)
           scenario_trace (poll_request credential_url "cred-1")
           (ok (state_body (JString "done")))).
  - vm_compute. reflexivity.
  - unfold scenario_trace. do 17 right. now left.
Defined.

Lemma issued_app (op : operation) (a b : trace) :
  issued op (a ++ b) = issued op a + issued op b.
Proof. unfold issued. now rewrite filter_app, length_app. Qed.

Lemma issued_none (op op' : operation) (s : trace) :
  (forall rq rp, In (EFetch rq rp) s -> issued_by rq = Some op') ->
  operation_eqb op op' = false ->
  issued op s = 0.
Proof.
  intros Hs Hne. induction s as [|[rq rp|ms|v] s IH].
  - reflexivity.
  - unfold issued in *. cbn [filter]. rewrite (Hs rq rp (or_introl eq_refl)), Hne.
    apply IH. intros rq' rp' Hin. apply (Hs rq' rp'). now right.
  - unfold issued in *. cbn [filter]. apply IH.
    intros rq' rp' Hin. apply (Hs rq' rp'). now right.
  - unfold issued in *. cbn [filter]. apply IH.
    intros rq' rp' Hin. apply (Hs rq' rp'). now right.
Qed.

Lemma polling_issued (svc : service) (base : string) (id : value) (op : operation)
    (word : string) (t : trace) (o : outcome unit) (t' : trace) (op' : operation) :
  (forall target, issued_by (poll_request base target) = Some op) ->
  operation_eqb op' op = false ->
  polling svc base id op word t o t' ->
  issued op' t' = issued op' t.
Proof.
  intros Hop Hne Hloop.
  destruct (polling_tail _ _ _ _ _ _ _ _ Hloop) as (s & -> & _ & _ & _ & Hs).
  rewrite issued_app, (issued_none op' op s); [lia| |exact Hne].
  intros rq rp Hin. apply Hs in Hin as (target & _ & ->). apply Hop.
Qed.

(** X11: a run of [tests] starts with the invitation request and asks for an
    invitation exactly once; it makes at most one credential offer, and
    exactly one when it completes.  Neither is ever asked again. *)
Theorem one_invitation_one_offer
    (svc : service) (fuel : nat) (o : outcome value) (t : trace) :
  run (tests fuel) svc [] = (o, t) ->
  (exists rp rest, t = EFetch invitation_request rp :: rest) /\
  issued CreateInvitation t = 1 /\
  issued CreateCredentialOffer t <= 1 /\
  (forall v, o = Returned v -> issued CreateCredentialOffer t = 1).
Proof.
  intros Hrun. apply tests_flow in Hrun.
  assert (Hloop1 : forall c text o1 t1,
             polling svc connections_url c GetConnectionStatus "trusted"
               (greeted svc text) o1 t1 ->
             (exists rp rest, t1 = EFetch invitation_request rp :: rest) /\
             issued CreateInvitation t1 = 1 /\
             issued CreateCredentialOffer t1 = 0).
  { intros c text o1 t1 Hloop. split; [|split].
    - apply polling_extends in Hloop as [s ->]. now eexists _, _.
    - now rewrite (polling_issued _ _ _ _ _ _ _ _ CreateInvitation
                     connection_poll_issued eq_refl Hloop).
    - now rewrite (polling_issued _ _ _ _ _ _ _ _ CreateCredentialOffer
                     connection_poll_issued eq_refl Hloop). }
  destruct Hrun as [e Hinv|u c Hinv Hu|u c text t Hinv Hu Hloop|u c text e t Hinv Hu Hloop
                    |u c text t e Hinv Hu Hloop Hoffer
                    |u c text t credentialId o t' Hinv Hu Hloop Hoffer Hloop2].
  - refine (conj _ (conj _ (conj _ _))); [now eexists _, _|reflexivity|cbn; lia|].
    intros v Hv. discriminate Hv.
  - refine (conj _ (conj _ (conj _ _))); [now eexists _, _|reflexivity|cbn; lia|].
    intros v Hv. discriminate Hv.
  - destruct (Hloop1 _ _ _ _ Hloop) as (Hhead & Hone & Hzero).
    refine (conj Hhead (conj Hone (conj _ _))); [lia|].
    intros v Hv. discriminate Hv.
  - destruct (Hloop1 _ _ _ _ Hloop) as (Hhead & Hone & Hzero).
    refine (conj Hhead (conj Hone (conj _ _))); [lia|].
    intros v Hv. discriminate Hv.
  - destruct (Hloop1 _ _ _ _ Hloop) as ((rp & rest & ->) & Hone & Hzero).
    unfold offered. rewrite !issued_app, Hone, Hzero.
    refine (conj _ (conj _ (conj _ _))); [now eexists _, _|cbn; lia|cbn; lia|].
    intros v Hv. discriminate Hv.
  - destruct (Hloop1 _ _ _ _ Hloop) as ((rp & rest & ->) & Hone & Hzero).
    rewrite (polling_issued _ _ _ _ _ _ _ _ CreateInvitation
               credential_poll_issued eq_refl Hloop2).
    rewrite (polling_issued _ _ _ _ _ _ _ _ CreateCredentialOffer
               credential_poll_issued eq_refl Hloop2).
    unfold offered. rewrite !issued_app, Hone, Hzero.
    refine (conj _ (conj _ (conj _ _))); [|cbn; lia|cbn; lia|intros v _; cbn; lia].
    apply polling_extends in Hloop2 as [s2 ->]. unfold offered. now eexists _, _.
Qed.

Lemma one_invitation_one_offer_witness :
  (exists rp rest, scenario_trace = EFetch invitation_request rp :: rest) /\
  issued CreateInvitation scenario_trace = 1 /\
  issued CreateCredentialOffer scenario_trace <= 1 /\
  (forall v, Returned JUndefined = Returned v ->
             issued CreateCredentialOffer scenario_trace = 1).
Proof.
  apply (one_invitation_one_offer (scripted scenario) 3 (Returned JUndefined)
           scenario_trace).
  vm_compute. reflexivity.
Defined.

(** ** The time spent waiting *)

Lemma elapsed_app (a b : trace) : (elapsed (a ++ b) = elapsed a + elapsed b)%Z.
Proof.
  induction a as [|[rq rp|ms|v] a IH]; simpl; rewrite ?IH; lia.
Qed.

Lemma delays_over (a b : trace) : delays (a ++ b) = delays a + delays b.
Proof. unfold delays. now rewrite filter_app, length_app. Qed.

Lemma beats_elapsed (rq : request) (s : trace) :
  beats rq s -> elapsed s = (2500 * Z.of_nat (delays s))%Z.
Proof.
  induction 1 as [|rp|rp v s' _ IH].
  - reflexivity.
  - reflexivity.
  - change (EWait 2500 :: EFetch rq rp :: ELog v :: s')
      with ([EWait 2500; EFetch rq rp; ELog v] ++ s').
    rewrite elapsed_app, delays_over, IH.
    change (elapsed [EWait 2500; EFetch rq rp; ELog v]) with 2500%Z.
    change (delays [EWait 2500; EFetch rq rp; ELog v]) with 1. lia.
Qed.

Lemma polling_text (svc : service) (base : string) (id : value) (op : operation)
    (word : string) (t : trace) (o : outcome unit) (t' : trace) :
  polling svc base id op word t o t' ->
  o = Returned tt ->
  exists target, ToString id = Some target.
Proof. induction 1; intros Ho; try discriminate; eauto. Qed.

(** The time a loop waits, and how its delays compare with its polls. *)
Lemma polling_time (svc : service) (base : string) (id : value) (op : operation)
    (word : string) (t : trace) (o : outcome unit) (t' : trace) :
  polling svc base id op word t o t' ->
  exists s,
    t' = t ++ s /\
    elapsed s = (2500 * Z.of_nat (delays s))%Z /\
    polls s <= delays s <= polls s + 1 /\
    (o = Returned tt -> delays s = polls s).
Proof.
  intros Hloop. pose proof (polling_text _ _ _ _ _ _ _ _ Hloop) as Htext.
  apply polling_beats in Hloop. destruct (ToString id) as [target|].
  - destruct Hloop as (s & -> & Hb). exists s. split; [reflexivity|].
    split; [now apply beats_elapsed in Hb|].
    rewrite (beats_counts (poll_request base target) s eq_refl Hb). split; [lia|easy].
  - destruct Hloop as [->| ->].
    + exists []. rewrite app_nil_r. repeat split; cbn; lia.
    + exists [EWait 2500]. split; [reflexivity|]. split; [reflexivity|].
      split; [cbn; lia|]. intros Ho. destruct (Htext Ho) as [target H]. discriminate.
Qed.

(** X12: the time a run of [tests] spends in [wait] is 5000 ms plus 2500 ms
    for each delay of its loops, and the loops have made as many delays as
    polls, or one more when the run stops between a delay and its poll; a
    run that completes has waited exactly 5000 ms plus 2500 ms per poll.
    A run that fails at the invitation has not waited at all. *)
Theorem waiting_time
    (svc : service) (fuel : nat) (o : outcome value) (t : trace) :
  run (tests fuel) svc [] = (o, t) ->
  (t = [EFetch invitation_request (svc [] invitation_request)] /\ elapsed t = 0%Z) \/
  (elapsed t = (5000 + 2500 * Z.of_nat (delays t))%Z /\
   polls t <= delays t <= polls t + 1 /\
   (forall v, o = Returned v ->
              elapsed t = (5000 + 2500 * Z.of_nat (polls t))%Z)).
Proof.
  intros Hrun. apply tests_flow in Hrun.
  assert (Hgreeted : forall text,
             elapsed (greeted svc text) = 5000%Z /\
             delays (greeted svc text) = 0 /\ polls (greeted svc text) = 0).
  { intros text. now repeat split. }
  assert (Hoffered : forall c rp,
             elapsed [EFetch (offer_of c) rp] = 0%Z /\
             delays [EFetch (offer_of c) rp] = 0 /\
             polls [EFetch (offer_of c) rp] = 0).
  { intros c rp. now repeat split. }
  destruct Hrun as [e Hinv|u c Hinv Hu|u c text t Hinv Hu Hloop|u c text e t Hinv Hu Hloop
                    |u c text t e Hinv Hu Hloop Hoffer
                    |u c text t credentialId o t' Hinv Hu Hloop Hoffer Hloop2];
    [left; now split|left; now split|right..].
  - destruct (polling_time _ _ _ _ _ _ _ _ Hloop) as (s & -> & He & Hb & _).
    destruct (Hgreeted text) as (Eg & Dg & Pg).
    rewrite elapsed_app, delays_over, polls_app, Eg, Dg, Pg, He.
    refine (conj _ (conj _ _)); [lia|lia|]. intros v Hv. discriminate Hv.
  - destruct (polling_time _ _ _ _ _ _ _ _ Hloop) as (s & -> & He & Hb & _).
    destruct (Hgreeted text) as (Eg & Dg & Pg).
    rewrite elapsed_app, delays_over, polls_app, Eg, Dg, Pg, He.
    refine (conj _ (conj _ _)); [lia|lia|]. intros v Hv. discriminate Hv.
  - destruct (polling_time _ _ _ _ _ _ _ _ Hloop) as (s & Es & He & Hb & Heq).
    destruct (Hgreeted text) as (Eg & Dg & Pg).
    destruct (Hoffered c (svc t (offer_of c))) as (Eo & Do & Po).
    unfold offered. rewrite !elapsed_app, !delays_over, !polls_app, Eo, Do, Po.
    rewrite Es, !elapsed_app, !delays_over, !polls_app, Eg, Dg, Pg, He, (Heq eq_refl).
    refine (conj _ (conj _ _)); [lia|lia|]. intros v Hv. discriminate Hv.
  - destruct (polling_time _ _ _ _ _ _ _ _ Hloop) as (s & Es & He & Hb & Heq).
    destruct (polling_time _ _ _ _ _ _ _ _ Hloop2) as (s2 & -> & He2 & Hb2 & Heq2).
    destruct (Hgreeted text) as (Eg & Dg & Pg).
    destruct (Hoffered c (svc t (offer_of c))) as (Eo & Do & Po).
    unfold offered. rewrite !elapsed_app, !delays_over, !polls_app, Eo, Do, Po.
    rewrite Es, !elapsed_app, !delays_over, !polls_app, Eg, Dg, Pg, He, He2,
      (Heq eq_refl).
    refine (conj _ (conj _ _)); [lia|lia|].
    intros v Hv. destruct o as [[]| |]; try discriminate Hv.
    rewrite (Heq2 eq_refl). lia.
Qed.

Lemma waiting_time_witness :
  (scenario_trace =
     [EFetch invitation_request (scripted scenario [] invitation_request)] /\
   elapsed scenario_trace = 0%Z) \/
  (elapsed scenario_trace = (5000 + 2500 * Z.of_nat (delays scenario_trace))%Z /\
   polls scenario_trace <= delays scenario_trace <= polls scenario_trace + 1 /\
   (forall v, Returned JUndefined = Returned v ->
              elapsed scenario_trace =
              (5000 + 2500 * Z.of_nat (polls scenario_trace))%Z)).
Proof.
  apply (waiting_time (scripted scenario) 3 (Returned JUndefined) scenario_trace).
  vm_compute. reflexivity.
Defined.

(** ** The flow against a scripted service *)

Lemma credential_turn_counted (svc : service) (target : string) (t : trace) (v : value) :
  polls_of GetCredentialState (t ++ turn svc credential_url target t v) =
  S (polls_of GetCredentialState t).
Proof.
  rewrite polls_of_app. unfold turn, polls_of at 2. cbn [filter].
  rewrite credential_poll_issued. cbn. lia.
Qed.

(** A loop against values that are not yet its word and then one that is. *)
Lemma polling_script (s : script) (base : string) (op : operation) (word : string)
    (replies : nat -> reply) (id : value) (target : string) (final : value) :
  ToString id = Some target ->
  (forall t, answer (scripted s) base target t = replies (polls_of op t)) ->
  (forall t v, polls_of op (t ++ turn (scripted s) base target t v) =
               S (polls_of op t)) ->
  loose_eq final word = Returned true ->
  forall (vs : list value) (t : trace) (fuel : nat),
    Forall (fun v => loose_eq v word = Returned false) vs ->
    (forall i v, nth_error (vs ++ [final]) i = Some v ->
                 settle op (replies (polls_of op t + i)) = Returned v) ->
    length vs < fuel ->
    exists tail,
      run (while_true fuel (poll_body base id op word)) (scripted s) t =
        (Returned tt, t ++ tail) /\
      observed tail = vs ++ [final] /\
      polls tail = S (length vs) /\
      beats (poll_request base target) tail.
Proof.
  intros Hid Hanswer Hcount Hfinal.
  induction vs as [|v vs IH]; intros t fuel Hvs Hscript Hfuel.
  - destruct fuel as [|fuel]; [cbn in Hfuel; lia|].
    cbn [while_true]. rewrite run_bind, poll_body_run, Hid, Hanswer.
    rewrite <- (Nat.add_0_r (polls_of op t)).
    rewrite (Hscript 0 final eq_refl), Hfinal.
    eexists. split; [reflexivity|]. repeat split. unfold turn. repeat constructor.
  - destruct fuel as [|fuel]; [cbn in Hfuel; lia|].
    cbn [while_true]. rewrite run_bind, poll_body_run, Hid, Hanswer.
    rewrite <- (Nat.add_0_r (polls_of op t)).
    rewrite (Hscript 0 v eq_refl).
    inversion Hvs as [|? ? Hv Hvs']; subst. rewrite Hv.
    destruct (IH (t ++ turn (scripted s) base target t v) fuel Hvs')
      as (tail & Hrun & Hobs & Hpolls & Hbeats).
    + intros i w Hi. rewrite Hcount.
      replace (S (polls_of op t) + i) with (polls_of op t + S i) by lia.
      now apply Hscript.
    + cbn in Hfuel. lia.
    + exists (turn (scripted s) base target t v ++ tail).
      rewrite Hrun, app_assoc. split; [reflexivity|].
      rewrite observed_app, polls_app, Hobs, Hpolls.
      repeat split. unfold turn. cbn. now constructor.
Qed.

Lemma beats_requests (rq : request) (s : trace) :
  method rq = GET -> beats rq s -> requests s = repeat rq (polls s).
Proof.
  intros Hget. induction 1 as [|rp|rp v s' _ IH].
  - reflexivity.
  - unfold polls. cbn. now rewrite Hget.
  - unfold polls in *. cbn. rewrite Hget. cbn. now rewrite IH.
Qed.

Lemma beats_uncounted (rq : request) (s : trace) :
  issued_by rq = Some GetConnectionStatus ->
  beats rq s -> polls_of GetCredentialState s = 0.
Proof.
  intros Hop. induction 1 as [|rp|rp v s' _ IH].
  - reflexivity.
  - unfold polls_of. cbn [filter]. now rewrite Hop.
  - unfold polls_of in *. cbn [filter]. now rewrite Hop.
Qed.

(** X13: against a service that answers the invitation with an invitation
    URL and a connection identifier, the connection polls with statuses of
    which the last is the first ['trusted'], the offer with a credential
    identifier, and the credential polls with states of which the last is the
    first ['done'], [tests] completes under any bound that exceeds both
    numbers of polls.  It logs the invitation URL, then every status, then
    every state; it requests the invitation, polls the connection once per
    status, makes the offer, and polls the credential once per state; and it
    waits 5000 ms plus 2500 ms per poll. *)
Theorem flow_completes
    (statuses states : list string) (s : script)
    (invitationUrl connectionId credentialId : string) (fuel : nat) :
  Forall (fun status => status <> "trusted") statuses ->
  Forall (fun state => state <> "done") states ->
  invitation_reply s =
    ok (JObject [("data",
          JObject [("invitationUrl", JString invitationUrl);
                   ("connection", JObject [("id", JString connectionId)])])]) ->
  connection_replies s =
    in_turn status_body (map JString (statuses ++ ["trusted"])) ->
  offer_reply s = ok (JObject [("data", JObject [("id", JString credentialId)])]) ->
  credential_replies s = in_turn state_body (map JString (states ++ ["done"])) ->
  length statuses < fuel ->
  length states < fuel ->
  exists t,
    run (tests fuel) (scripted s) [] = (Returned JUndefined, t) /\
    observed t =
      JString ("create a QR code from this and scan it with the PCM: "
               ++ invitationUrl)%string
      :: map JString (statuses ++ ["trusted"]) ++ map JString (states ++ ["done"]) /\
    requests t =
      mkRequest POST invitation_url [("Content-Type", "application/json")]
        (Some (JObject []))
      :: repeat (mkRequest GET (connections_url ++ connectionId)%string [] None)
           (length (statuses ++ ["trusted"]))
      ++ mkRequest POST offer_url [("Content-Type", "application/json")]
           (Some (JObject [("connectionId", JString connectionId);
                           ("credentialDefinitionId",
                            JString default_credentialDefinitionId);
                           ("comment", JString "");
                           ("attributes", attributes);
                           ("autoAcceptCredential", JString "always")]))
      :: repeat (mkRequest GET (credential_url ++ credentialId)%string [] None)
           (length (states ++ ["done"])) /\
    elapsed t =
      (5000 + 2500 * Z.of_nat (length (statuses ++ ["trusted"])
                               + length (states ++ ["done"])))%Z.
Proof.
  intros Hstatuses Hstates Hinv Hconn Hoffer Hcred Hfuel1 Hfuel2.
  set (c := JString connectionId). set (u := JString invitationUrl).
  assert (Hinvited : settle CreateInvitation ((scripted s) [] invitation_request) =
                     Returned (invitation u c)).
  { change ((scripted s) [] invitation_request) with (invitation_reply s). now rewrite Hinv. }
  (* the connection loop *)
  destruct (polling_script s connections_url GetConnectionStatus "trusted"
              (connection_replies s) c connectionId (JString "trusted") eq_refl
              (scripted_connection_answer s connectionId)
              (connection_turn_counted (scripted s) connectionId) eq_refl
              (map JString statuses) (greeted (scripted s) invitationUrl) fuel)
    as (tail1 & Hrun1 & Hobs1 & Hpolls1 & Hb1).
  { now apply not_yet. }
  { intros i v Hi.
    change (polls_of GetConnectionStatus (greeted (scripted s) invitationUrl)) with 0.
    rewrite Hconn. cbn [Nat.add]. unfold in_turn. rewrite map_app. cbn [map].
    now rewrite Hi. }
  { now rewrite length_map. }
  set (t1 := greeted (scripted s) invitationUrl ++ tail1) in *.
  assert (Hoffered : settle CreateCredentialOffer ((scripted s) t1 (offer_of c)) =
                     Returned (JString credentialId)).
  { change ((scripted s) t1 (offer_of c)) with (offer_reply s). now rewrite Hoffer. }
  (* the credential loop *)
  assert (Hfresh : polls_of GetCredentialState (offered (scripted s) c t1) = 0).
  { unfold offered, t1. rewrite !polls_of_app.
    rewrite (beats_uncounted _ _ (connection_poll_issued connectionId) Hb1).
    reflexivity. }
  destruct (polling_script s credential_url GetCredentialState "done"
              (credential_replies s) (JString credentialId) credentialId
              (JString "done") eq_refl
              (scripted_credential_answer s credentialId)
              (credential_turn_counted (scripted s) credentialId) eq_refl
              (map JString states) (offered (scripted s) c t1) fuel)
    as (tail2 & Hrun2 & Hobs2 & Hpolls2 & Hb2).
  { now apply not_yet. }
  { intros i v Hi. rewrite Hfresh, Hcred. cbn [Nat.add].
    unfold in_turn. rewrite map_app. cbn [map]. now rewrite Hi. }
  { now rewrite length_map. }
  exists (offered (scripted s) c t1 ++ tail2). split; [|split; [|split]].
  - unfold tests. rewrite run_bind, createInvitation_default.
    rewrite Hinvited.
    rewrite run_bind, run_lift.
    change (get (invitation u c) "invitationUrl") with (Returned u). cbv iota beta.
    rewrite run_bind, run_lift.
    change (to_string u) with (Returned invitationUrl). cbv iota beta.
    rewrite run_bind, run_log. cbv iota beta.
    rewrite run_bind, run_wait. cbv iota beta.
    change ((([] ++ [EFetch invitation_request ((scripted s) [] invitation_request)]) ++
             [ELog (JString ("create a QR code from this and scan it with the PCM: "
                             ++ invitationUrl)%string)]) ++ [EWait 5000])
      with (greeted (scripted s) invitationUrl).
    rewrite run_bind, connection_wait_run. rewrite Hrun1. fold t1.
    rewrite run_bind, run_lift.
    change (get (invitation u c) "connectionId") with (Returned c). cbv iota beta.
    rewrite run_bind.
    change (createCredentialOffer c attributes JUndefined JUndefined)
      with (createCredentialOffer c attributes JUndefined (JString offer_url)).
    rewrite createCredentialOffer_run. cbv zeta. cbn [default_to].
    fold (offer_of c). fold (offered (scripted s) c t1). rewrite Hoffered.
    rewrite run_bind, credential_wait_run. rewrite Hrun2.
    now rewrite run_ret.
  - unfold offered, t1. rewrite !observed_app, Hobs1, Hobs2, !map_app.
    cbn [observed greeted invited banner app map]. now rewrite app_nil_r.
  - unfold offered, t1. rewrite !requests_app.
    rewrite (beats_requests (poll_request connections_url connectionId) tail1
               eq_refl Hb1).
    rewrite (beats_requests (poll_request credential_url credentialId) tail2
               eq_refl Hb2).
    rewrite Hpolls1, Hpolls2, !length_app, !length_map. cbn [length].
    rewrite !Nat.add_1_r. unfold offer_of, offer_request, offer_body, json_header.
    change (jsonify (JObject _)) with
      (Some (JObject [("connectionId", c);
                      ("credentialDefinitionId", JString default_credentialDefinitionId);
                      ("comment", JString "");
                      ("attributes", attributes);
                      ("autoAcceptCredential", JString "always")])).
    rewrite <- app_assoc. reflexivity.
  - unfold offered, t1. rewrite !elapsed_app.
    rewrite (beats_elapsed _ _ Hb1), (beats_elapsed _ _ Hb2).
    rewrite (beats_counts (poll_request connections_url connectionId) tail1
               eq_refl Hb1).
    rewrite (beats_counts (poll_request credential_url credentialId) tail2
               eq_refl Hb2).
    rewrite Hpolls1, Hpolls2, !length_app, !length_map. cbn [length].
    change (elapsed (greeted (scripted s) invitationUrl)) with 5000%Z.
    change (elapsed [EFetch (offer_of c) ((scripted s) (greeted (scripted s) invitationUrl ++ tail1)
                                            (offer_of c))]) with 0%Z.
    lia.
Qed.

Lemma flow_completes_witness :
  exists t,
    run (tests 3) (scripted scenario) [] = (Returned JUndefined, t) /\
    observed t =
      JString ("create a QR code from this and scan it with the PCM: "
               ++ "https://wallet.example/inv/abc")%string
      :: map JString (["pending"; "pending"] ++ ["trusted"])
         ++ map JString (["offer-sent"] ++ ["done"]) /\
    requests t =
      mkRequest POST invitation_url [("Content-Type", "application/json")]
        (Some (JObject []))
      :: repeat (mkRequest GET (connections_url ++ "conn-1")%string [] None)
           (length (["pending"; "pending"] ++ ["trusted"]))
      ++ mkRequest POST offer_url [("Content-Type", "application/json")]
           (Some (JObject [("connectionId", JString "conn-1");
                           ("credentialDefinitionId",
                            JString default_credentialDefinitionId);
                           ("comment", JString "");
                           ("attributes", attributes);
                           ("autoAcceptCredential", JString "always")]))
      :: repeat (mkRequest GET (credential_url ++ "cred-1")%string [] None)
           (length (["offer-sent"] ++ ["done"])) /\
    elapsed t =
      (5000 + 2500 * Z.of_nat (length (["pending"; "pending"] ++ ["trusted"])
                               + length (["offer-sent"] ++ ["done"])))%Z.
Proof.
  apply (flow_completes ["pending"; "pending"] ["offer-sent"] scenario
           "https://wallet.example/inv/abc" "conn-1" "cred-1" 3).
  - repeat constructor; discriminate.
  - repeat constructor; discriminate.
  - reflexivity.
  - reflexivity.
  - reflexivity.
  - reflexivity.
  - cbn. lia.
  - cbn. lia.
Defined.
